(** * python-cloud-functions-workspace: the text utility, the HTTP
      application and the serverless adapter

    Shallow embedding of
      - libs/core/core/models.py, libs/core/core/text.py
      - libs/api/api/routes/hello.py, libs/api/api/routes/documents.py
      - libs/api/api/main.py
      - services/api-function/main.py
      - setup_gcp_deployment.py
    together with the parts of the Python runtime and of the web framework
    those files call ([str.strip], [str.split], [str.rstrip], [json.dumps],
    [str.encode], exception-handler lookup). *)

From Equations Require Import Equations.
From Stdlib Require Import String Ascii Bool Arith ZArith NArith Lia List.
Import ListNotations.

(** ** Python values *)

Module Py.

(** A Python [str] is a sequence of Unicode code points. *)
Definition str := list N.

(** [bytes]: a sequence of octets. *)
Definition bytes := list N.

(** String literals of the source, written as Rocq strings. *)
Definition lit (s : string) : str :=
  map N_of_ascii (list_ascii_of_string s).

Definition is_empty {A} (l : list A) : bool :=
  match l with [] => true | _ :: _ => false end.

(** [Py_UNICODE_ISSPACE]: the code points [str.strip()] and [str.split()]
    treat as whitespace. *)
Definition Py_UNICODE_ISSPACE (c : N) : bool :=
  ((9 <=? c) && (c <=? 13)            (* \t \n \v \f \r *)
   || (28 <=? c) && (c <=? 32)        (* FS GS RS US and the space *)
   || (c =? 133) || (c =? 160)        (* NEL, no-break space *)
   || (c =? 5760)                     (* U+1680 *)
   || (8192 <=? c) && (c <=? 8202)    (* U+2000 .. U+200A *)
   || (c =? 8232) || (c =? 8233)      (* U+2028, U+2029 *)
   || (c =? 8239) || (c =? 8287)      (* U+202F, U+205F *)
   || (c =? 12288))%N.                (* U+3000 *)

Section Scanning.
Variable p : N -> bool.

(** [while i < len and p(s[i]): i += 1], keeping [s[i:]]. *)
Fixpoint skip (s : str) : str :=
  match s with
  | [] => []
  | c :: r => if p c then skip r else s
  end.

(** The characters passed over by [skip]. *)
Fixpoint span (s : str) : str :=
  match s with
  | [] => []
  | c :: r => if p c then c :: span r else []
  end.

Definition lstrip_with (s : str) : str := skip s.

(** Scanning from the right end. *)
Definition rstrip_with (s : str) : str := rev (skip (rev s)).
End Scanning.

(** [s.strip()]: both ends, whitespace. *)
Definition strip (s : str) : str :=
  rstrip_with Py_UNICODE_ISSPACE (lstrip_with Py_UNICODE_ISSPACE s).

(** [s.rstrip(chars)]: strips every trailing character that occurs in
    [chars]. *)
Definition rstrip (s chars : str) : str :=
  rstrip_with (fun c => existsb (N.eqb c) chars) s.

Definition nonspace (c : N) : bool := negb (Py_UNICODE_ISSPACE c).

Lemma length_skip p s : length (skip p s) <= length s.
Proof.
  induction s as [|c r IH]; simpl; [lia|].
  destruct (p c); simpl; lia.
Qed.

(** [s.split()] with no separator: skip whitespace, then take the maximal
    run of non-whitespace characters as the next item, until the end. *)
Equations? split (s : str) : list str by wf (length s) lt :=
  split [] := [];
  split (c :: r) with Py_UNICODE_ISSPACE c => {
    | true := split r;
    | false := (c :: span nonspace r) :: split (skip nonspace r) }.
Proof.
  pose proof (length_skip nonspace r). simpl. lia.
Qed.

(** [len] returns a Python [int]. *)
Definition len {A} (l : list A) : Z := Z.of_nat (length l).

End Py.

Import Py.

(** ** libs/core/core/models.py *)

Module Core.

Record TextDocument := { text : str }.

(** libs/core/core/text.py *)
Definition get_word_count (document : TextDocument) : Z :=
  if is_empty (strip (text document)) then 0%Z
  else len (split (text document)).

End Core.

Import Core.

(** ** The word count as the specification words it

    "Trims leading/trailing whitespace; if the trimmed result is empty,
    returns 0.  Otherwise splits the trimmed text on runs of whitespace and
    returns the number of resulting tokens." *)

Module Spec.

Definition inspect {A} (a : A) : {b : A | a = b} := exist _ a eq_refl.

Lemma length_skip_tail p q s c r :
  skip p s = c :: r -> length (skip q r) < length s.
Proof.
  intros E. pose proof (length_skip p s) as H1.
  pose proof (length_skip q r) as H2.
  rewrite E in H1. simpl in H1. lia.
Qed.

(** Cutting a text at every maximal run of whitespace: the characters
    before the first whitespace character form a piece, the whole run of
    whitespace that follows is dropped, and the remainder is cut the same
    way ([re.split] with the pattern [\s+]). *)
Equations split_on_runs (s : str) : list str by wf (length s) lt :=
  split_on_runs s with inspect (skip nonspace s) => {
    | exist _ [] _ := [s];
    | exist _ (c :: r) e :=
        span nonspace s :: split_on_runs (skip Py_UNICODE_ISSPACE r) }.
Next Obligation.
  eapply length_skip_tail; eassumption.
Qed.

Definition word_count (t : str) : Z :=
  let trimmed := strip t in
  if is_empty trimmed then 0%Z else len (split_on_runs trimmed).

(** The implementation without its guard. *)
Definition unguarded_word_count (document : TextDocument) : Z :=
  len (split (text document)).

End Spec.

(** ** JSON documents (request and response bodies) *)

#[local] Set Warnings "-register-all".

Inductive json :=
| JNull
| JBool (b : bool)
| JInt (n : Z)
| JStr (s : str)
| JList (l : list json)
| JDict (items : list (str * json)).

Fixpoint str_eqb (a b : str) : bool :=
  match a, b with
  | [], [] => true
  | x :: a', y :: b' => N.eqb x y && str_eqb a' b'
  | _, _ => false
  end.

(** ** pydantic: a model with one required string field

    [Field(..., min_length=.., max_length=..)] on a [str] attribute.  Lengths
    count code points.  Of pydantic's error dictionaries the [type] and
    [loc] entries are kept. *)

Module Pydantic.

Record ErrorDetails := { type : str; loc : list str }.

Record StrField := {
  field_name : str;
  min_length : option nat;
  max_length : option nat }.

(** The value of a key in a parsed JSON object: the last occurrence. *)
Definition get (k : str) (items : list (str * json)) : option json :=
  option_map snd (find (fun kv => str_eqb (fst kv) k) (rev items)).

Definition at_least (bound : option nat) (n : nat) : bool :=
  match bound with Some m => m <=? n | None => true end.

Definition at_most (bound : option nat) (n : nat) : bool :=
  match bound with Some m => n <=? m | None => true end.

Definition validate_str (f : StrField) (at_loc : list str) (v : json)
  : list ErrorDetails + str :=
  match v with
  | JStr s =>
      if negb (at_least (min_length f) (length s)) then
        inl [{| type := lit "string_too_short"; loc := at_loc |}]
      else if negb (at_most (max_length f) (length s)) then
        inl [{| type := lit "string_too_long"; loc := at_loc |}]
      else inr s
  | _ => inl [{| type := lit "string_type"; loc := at_loc |}]
  end.

Definition validate_model (f : StrField) (at_loc : list str) (v : json)
  : list ErrorDetails + str :=
  match v with
  | JDict items =>
      match get (field_name f) items with
      | None => inl [{| type := lit "missing";
                        loc := at_loc ++ [field_name f] |}]
      | Some x => validate_str f (at_loc ++ [field_name f]) x
      end
  | _ => inl [{| type := lit "model_attributes_type"; loc := at_loc |}]
  end.

(** [exc.errors()] rendered as JSON. *)
Definition error_json (e : ErrorDetails) : json :=
  JDict [(lit "type", JStr (type e));
         (lit "loc", JList (map JStr (loc e)))].

End Pydantic.

(** ** The web framework: exceptions, handler lookup, body parameters

    An application object starts with a handler for [HTTPException] and one
    for [RequestValidationError]; [@app.exception_handler(cls)] stores a
    handler under [cls].  An exception raised while a request is processed
    is answered by the handler of the first class of its resolution order
    that has one.  Bodies are taken as parsed JSON; the redirect of a path
    with a trailing slash is left out. *)

Module FastAPI.

Import Pydantic.

Inductive exception :=
| RequestValidationError (errs : list ErrorDetails)
    (* fastapi.exceptions: raised when a request body fails its schema *)
| ValidationError (errs : list ErrorDetails)
    (* pydantic.ValidationError: raised by a model constructor *)
| HTTPException (code : Z) (info : str)
| OtherException (what : str).

Inductive result (A : Type) :=
| Return (a : A)
| Raise (e : exception).
Arguments Return {A} a.
Arguments Raise {A} e.

Definition fmap {A B} (f : A -> B) (r : result A) : result B :=
  match r with Return a => Return (f a) | Raise e => Raise e end.

(** Attributes read by the handlers. *)
Definition errors (exc : exception) : list ErrorDetails :=
  match exc with
  | RequestValidationError errs | ValidationError errs => errs
  | _ => []
  end.

Definition status_code_of (exc : exception) : Z :=
  match exc with HTTPException code _ => code | _ => 500%Z end.

Definition detail_of (exc : exception) : str :=
  match exc with HTTPException _ info => info | _ => [] end.

Record JSONResponse := { status_code : Z; content : json }.

(** The classes a handler can be registered for, and the method
    resolution order of each exception (most specific class first). *)
Inductive exc_class :=
| C_RequestValidationError
| C_ValidationError
| C_HTTPException
| C_Exception.

Definition exc_class_eqb (a b : exc_class) : bool :=
  match a, b with
  | C_RequestValidationError, C_RequestValidationError
  | C_ValidationError, C_ValidationError
  | C_HTTPException, C_HTTPException
  | C_Exception, C_Exception => true
  | _, _ => false
  end.

Definition mro (exc : exception) : list exc_class :=
  match exc with
  | RequestValidationError _ => [C_RequestValidationError; C_Exception]
  | ValidationError _ => [C_ValidationError; C_Exception]
  | HTTPException _ _ => [C_HTTPException; C_Exception]
  | OtherException _ => [C_Exception]
  end.

Definition exception_handler := exception -> JSONResponse.

(** Handlers are a dictionary keyed by class; registering a class again
    replaces its handler. *)
Definition handler_table := list (exc_class * exception_handler).

Definition handler_for (table : handler_table) (c : exc_class)
  : option exception_handler :=
  option_map snd (find (fun ch => exc_class_eqb (fst ch) c) table).

Definition add_exception_handler (c : exc_class) (h : exception_handler)
    (table : handler_table) : handler_table :=
  (c, h) :: filter (fun ch => negb (exc_class_eqb (fst ch) c)) table.

(** The first class of the exception's resolution order that has a
    handler decides. *)
Fixpoint lookup_handler_in (table : handler_table) (classes : list exc_class)
  : option exception_handler :=
  match classes with
  | [] => None
  | c :: rest =>
      match handler_for table c with
      | Some h => Some h
      | None => lookup_handler_in table rest
      end
  end.

Definition lookup_handler (table : handler_table) (exc : exception) :=
  lookup_handler_in table (mro exc).

(** The handlers every application starts with. *)
Definition http_exception_handler : exception_handler := fun exc =>
  {| status_code := status_code_of exc;
     content := JDict [(lit "detail", JStr (detail_of exc))] |}.

Definition request_validation_exception_handler : exception_handler :=
  fun exc =>
  {| status_code := 422;
     content := JDict [(lit "detail",
                        JList (map error_json (errors exc)))] |}.

Definition default_handlers : handler_table :=
  [(C_HTTPException, http_exception_handler);
   (C_RequestValidationError, request_validation_exception_handler)].

(** With no handler at all the server answers a plain 500. *)
Definition server_error : JSONResponse :=
  {| status_code := 500; content := JStr (lit "Internal Server Error") |}.

Definition handle (table : handler_table) (exc : exception) : JSONResponse :=
  match lookup_handler table exc with
  | Some h => h exc
  | None => server_error
  end.

(** A single body parameter whose type is a model: the parsed JSON body is
    validated against the model, at location [body]; a request without a
    body misses the parameter. *)
Definition body_param (f : StrField) (body : option json) : result str :=
  match body with
  | None => Raise (RequestValidationError
                     [{| type := lit "missing"; loc := [lit "body"] |}])
  | Some v =>
      match validate_model f [lit "body"] v with
      | inl errs => Raise (RequestValidationError errs)
      | inr s => Return s
      end
  end.

End FastAPI.

(** ** libs/api/api/routes/hello.py *)

Module Hello.

Import Pydantic FastAPI.

Record HelloRequest := { name : str }.

Definition HelloRequest_name : StrField :=
  {| field_name := lit "name";
     min_length := Some 1;
     max_length := Some 100 |}.

Record HelloResponse := { hello : str }.

Record HelloGetResponse := { text : str }.

Definition get_hello : result HelloGetResponse :=
  Return {| text := lit "Hello World!" |}.

Definition post_hello (request : HelloRequest) : result HelloResponse :=
  if is_empty (strip (name request)) then
    Raise (HTTPException 400 (lit "Name cannot be empty or whitespace"))
  else Return {| hello := name request |}.

(** The response models as JSON objects. *)
Definition dump_HelloResponse (r : HelloResponse) : json :=
  JDict [(lit "hello", JStr (hello r))].

Definition dump_HelloGetResponse (r : HelloGetResponse) : json :=
  JDict [(lit "text", JStr (text r))].

End Hello.

(** ** libs/api/api/routes/documents.py *)

Module Documents.

Import Pydantic FastAPI.

Record WordCountRequest := { text : str }.

Definition WordCountRequest_text : StrField :=
  {| field_name := lit "text";
     min_length := Some 1;
     max_length := None |}.

Record WordCountResponse := { word_count : Z }.

Definition count_words (request : WordCountRequest)
  : result WordCountResponse :=
  let document := {| Core.text := text request |} in
  let word_count := get_word_count document in
  Return {| word_count := word_count |}.

Definition dump_WordCountResponse (r : WordCountResponse) : json :=
  JDict [(lit "word_count", JInt (word_count r))].

End Documents.

(** ** libs/api/api/main.py *)

Module Main.

Import Pydantic FastAPI.

Definition VERSION : str := lit "0.0.9".

Definition validation_exception_handler : exception_handler := fun exc =>
  {| status_code := 422;
     content := JDict [(lit "detail", JStr (lit "Validation error"));
                       (lit "errors",
                        JList (map error_json (errors exc)))] |}.

Definition general_exception_handler : exception_handler := fun _exc =>
  {| status_code := 500;
     content := JDict [(lit "detail",
                        JStr (lit "Internal server error"))] |}.

(** The two [@app.exception_handler] registrations, on top of the
    framework's own handlers. *)
Definition exception_handlers : handler_table :=
  add_exception_handler C_Exception general_exception_handler
    (add_exception_handler C_ValidationError validation_exception_handler
       default_handlers).

Record HealthResponse := { status : str; version : str }.

Definition health_check : result HealthResponse :=
  Return {| status := lit "healthy"; version := VERSION |}.

Definition dump_HealthResponse (r : HealthResponse) : json :=
  JDict [(lit "status", JStr (status r));
         (lit "version", JStr (version r))].

(** *** The application: routing, body validation, handler call,
        exception translation *)

Inductive endpoint := GetHello | PostHello | CountWords | HealthCheck.

Record Request := { method : str; path : str; body : option json }.

(** [include_router(hello.router)], [include_router(documents.router)],
    then [/health]. *)
Definition routes : list (str * str * endpoint) :=
  [(lit "GET", lit "/hello", GetHello);
   (lit "POST", lit "/hello", PostHello);
   (lit "POST", lit "/documents/word_count", CountWords);
   (lit "GET", lit "/health", HealthCheck)].

Definition route (request : Request) : result endpoint :=
  match find (fun r => str_eqb (snd (fst r)) (path request)
                       && str_eqb (fst (fst r)) (method request)) routes with
  | Some r => Return (snd r)
  | None =>
      if existsb (fun r => str_eqb (snd (fst r)) (path request)) routes
      then Raise (HTTPException 405 (lit "Method Not Allowed"))
      else Raise (HTTPException 404 (lit "Not Found"))
  end.

(** Running an endpoint: its body parameter is validated first, and only
    a valid one reaches the handler function.  The first component lists
    the handler functions that were entered. *)
Definition run (ep : endpoint) (b : option json)
  : list endpoint * result json :=
  match ep with
  | GetHello => ([GetHello], fmap Hello.dump_HelloGetResponse Hello.get_hello)
  | PostHello =>
      match body_param Hello.HelloRequest_name b with
      | Raise e => ([], Raise e)
      | Return s =>
          ([PostHello],
           fmap Hello.dump_HelloResponse
                (Hello.post_hello {| Hello.name := s |}))
      end
  | CountWords =>
      match body_param Documents.WordCountRequest_text b with
      | Raise e => ([], Raise e)
      | Return s =>
          ([CountWords],
           fmap Documents.dump_WordCountResponse
                (Documents.count_words {| Documents.text := s |}))
      end
  | HealthCheck => ([HealthCheck], fmap dump_HealthResponse health_check)
  end.

Definition respond (r : result json) : JSONResponse :=
  match r with
  | Return c => {| status_code := 200; content := c |}
  | Raise e => handle exception_handlers e
  end.

Definition app (request : Request) : list endpoint * JSONResponse :=
  match route request with
  | Raise e => ([], respond (Raise e))
  | Return ep =>
      let '(entered, r) := run ep (body request) in (entered, respond r)
  end.

Definition response_of (request : Request) : JSONResponse :=
  snd (app request).

(** The process serves requests one after the other; nothing is carried
    from one request to the next. *)
Definition serve (history : list Request) : list JSONResponse :=
  map response_of history.

Definition POST (p : string) (b : json) : Request :=
  {| method := lit "POST"; path := lit p; body := Some b |}.

Definition GET (p : string) : Request :=
  {| method := lit "GET"; path := lit p; body := None |}.

End Main.

(** ** services/api-function/main.py *)

Module ApiFunction.

(** What a call can raise: [except Exception] catches the first kind and
    lets the second ([KeyboardInterrupt], [SystemExit], [GeneratorExit])
    through. *)
Inductive raised :=
| Exception (what : str)
| SystemExiting (what : str).

Inductive outcome (A : Type) :=
| Ok (a : A)
| Raised (r : raised).
Arguments Ok {A} a.
Arguments Raised {A} r.

Definition bind {A B} (m : outcome A) (k : A -> outcome B) : outcome B :=
  match m with Ok a => k a | Raised r => Raised r end.

Notation "x <- m ;; k" := (bind m (fun x => k))
  (at level 61, m at next level, right associativity).

(** *** [json.dumps] on a [dict[str, str]] and [str.encode] *)

Definition hex_digit (n : N) : N :=
  (if n <? 10 then 48 + n else 87 + n)%N.

(** ['\\u{0:04x}'] *)
Definition u_escape (c : N) : str :=
  [92; 117 (* \u *); hex_digit (c / 4096 mod 16); hex_digit (c / 256 mod 16);
   hex_digit (c / 16 mod 16); hex_digit (c mod 16)]%N.

Definition backslash : N := 92%N.
Definition dquote : N := 34%N.

Definition escape_char (c : N) : str :=
  (if c =? dquote then [backslash; dquote]
   else if c =? backslash then [backslash; backslash]
   else if c =? 10 then backslash :: lit "n"
   else if c =? 13 then backslash :: lit "r"
   else if c =? 9 then backslash :: lit "t"
   else if c =? 8 then backslash :: lit "b"
   else if c =? 12 then backslash :: lit "f"
   else if (32 <=? c) && (c <=? 126) then [c]
   else if c <? 65536 then u_escape c
   else u_escape (55296 + (c - 65536) / 1024)
        ++ u_escape (56320 + (c - 65536) mod 1024))%N.

Definition quote (s : str) : str :=
  [dquote] ++ flat_map escape_char s ++ [dquote].

Fixpoint join (sep : str) (parts : list str) : str :=
  match parts with
  | [] => []
  | [x] => x
  | x :: rest => x ++ sep ++ join sep rest
  end.

Definition json_dumps (d : list (str * str)) : str :=
  lit "{"
  ++ join (lit ", ")
       (map (fun kv => quote (fst kv) ++ lit ": " ++ quote (snd kv)) d)
  ++ lit "}".

Definition utf8 (c : N) : outcome bytes :=
  (if c <? 128 then Ok [c]
   else if c <? 2048 then Ok [192 + c / 64; 128 + c mod 64]
   else if (55296 <=? c) && (c <=? 57343) then
     Raised (Exception (lit "UnicodeEncodeError"))
   else if c <? 65536 then
     Ok [224 + c / 4096; 128 + c / 64 mod 64; 128 + c mod 64]
   else
     Ok [240 + c / 262144; 128 + c / 4096 mod 64;
         128 + c / 64 mod 64; 128 + c mod 64])%N.

Fixpoint encode (s : str) : outcome bytes :=
  match s with
  | [] => Ok []
  | c :: r => b <- utf8 c ;; rest <- encode r ;; Ok (b ++ rest)
  end.

(** *** [dict(...)] of a sequence of header items *)

Definition headers_dict := list (str * str).

Fixpoint dict_set (k v : str) (d : headers_dict) : headers_dict :=
  match d with
  | [] => [(k, v)]
  | (k', v') :: r =>
      if str_eqb k' k then (k, v) :: r else (k', v') :: dict_set k v r
  end.

Definition dict (items : list (str * str)) : headers_dict :=
  fold_left (fun d kv => dict_set (fst kv) (snd kv) d) items [].

(** *** The platform request and the in-process client *)

Record PlatformRequest := {
  method : str;
  path : str;
  query_string : str;
  headers : list (str * str);
  (** [None]: the object has no [get_data] attribute. *)
  get_data : option (outcome bytes) }.

(** The path followed by [?] and the query string, also when the query
    string is empty. *)
Definition full_path (request : PlatformRequest) : str :=
  path request ++ lit "?" ++ query_string request.

Record Response := {
  content : bytes;
  status_code : Z;
  response_headers : list (str * str) }.

Definition reply : Type := bytes * Z * headers_dict.

Section Adapter.

(** [client.request(method=, url=, headers=, content=)]: the dispatch
    against the application. *)
Variable client_request :
  str -> str -> headers_dict -> option bytes -> outcome Response.

Definition url_of (request : PlatformRequest) : str :=
  rstrip (full_path request) (lit "?").

Definition content_of (request : PlatformRequest)
  : outcome (option bytes) :=
  match get_data request with
  | Some data => d <- data ;; Ok (Some d)
  | None => Ok None
  end.

Definition dispatch (request : PlatformRequest) : outcome Response :=
  c <- content_of request ;;
  client_request (method request) (url_of request)
                 (dict (headers request)) c.

Definition try_block (request : PlatformRequest) : outcome reply :=
  response <- dispatch request ;;
  Ok (content response, status_code response,
      dict (response_headers response)).

Definition except_block : outcome reply :=
  error_body <- encode (json_dumps
                          [(lit "detail", lit "Internal server error")]) ;;
  Ok (error_body, 500%Z,
      [(lit "content-type", lit "application/json")]).

Definition api_function (request : PlatformRequest) : outcome reply :=
  match try_block request with
  | Raised (Exception _) => except_block
  | r => r
  end.

End Adapter.

End ApiFunction.

Import FastAPI.

Definition dq : str := [ApiFunction.dquote].

(** ** setup_gcp_deployment.py

    The script prints to the console and launches [gcloud] processes.  The
    machine it runs on is a state [world] with a function [spawn] that gives,
    for a command line, the next state and either the completed process or
    what [subprocess.run] raises.  The console lines and the command lines
    passed to [subprocess.run] are recorded, in order, in [trace]; writing
    to the console is taken to succeed. *)

Module Setup.

Record CompletedProcess := { returncode : Z; stdout : str; stderr : str }.

(** What [subprocess.run] can raise instead of returning. *)
Inductive launch_failure :=
| NotFound (msg : str)      (* FileNotFoundError: no such executable *)
| Failure (msg : str)       (* another Exception, such as PermissionError *)
| Interrupted.              (* KeyboardInterrupt *)

Inductive exc :=
| FileNotFoundError (msg : str)
| CalledProcessError (code : Z) (cmd : list str)
| OtherException (msg : str)
| KeyboardInterrupt
| SystemExit (code : Z).

Inductive result (A : Type) :=
| Done (a : A)
| Raised (e : exc).
Arguments Done {A} a.
Arguments Raised {A} e.

Inductive event :=
| Printed (text : str)
| Run (cmd : list str).

(** [args] as [parse_args] returns it: the positional [project_id],
    [--key-path] with its default, and the [--skip-project-setup] flag. *)
Record Namespace := {
  project_id : str;
  key_path : str;
  skip_project_setup : bool }.

Definition parse_args (project : str) (key_path_option : option str)
    (skip_flag : bool) : Namespace :=
  {| project_id := project;
     key_path := match key_path_option with
                 | Some p => p
                 | None => lit "key.json"
                 end;
     skip_project_setup := skip_flag |}.

Declare Scope script_scope.
Delimit Scope script_scope with script.

Section Script.

Variable world : Type.
Variable spawn :
  world -> list str -> world * (CompletedProcess + launch_failure).

(** [str(e)] of a [CalledProcessError]. *)
Variable called_process_text : Z -> list str -> str.

(** [str(Path(p))]. *)
Variable Path : str -> str.

Record state := { env : world; trace : list event }.

Definition M (A : Type) : Type := state -> state * result A.

Definition ret {A} (a : A) : M A := fun st => (st, Done a).

Definition raise {A} (e : exc) : M A := fun st => (st, Raised e).

Definition bind {A B} (m : M A) (k : A -> M B) : M B := fun st =>
  match m st with
  | (st', Done a) => k a st'
  | (st', Raised e) => (st', Raised e)
  end.

Notation "x <- m1 ;; m2" := (bind m1 (fun x => m2))
  (at level 61, m1 at next level, right associativity) : script_scope.
Notation "m1 ;; m2" := (bind m1 (fun _ => m2))
  (at level 61, right associativity) : script_scope.

Local Open Scope script_scope.

(** [str(e)] for the instances of [Exception]; [KeyboardInterrupt] and
    [SystemExit] are not instances of it. *)
Definition as_Exception (e : exc) : option str :=
  match e with
  | FileNotFoundError msg => Some msg
  | CalledProcessError code cmd => Some (called_process_text code cmd)
  | OtherException msg => Some msg
  | KeyboardInterrupt => None
  | SystemExit _ => None
  end.

(** [try: body  except Exception as e: handler(str(e))] *)
Definition try_except_Exception {A} (body : M A) (handler : str -> M A)
  : M A := fun st =>
  match body st with
  | (st', Done a) => (st', Done a)
  | (st', Raised e) =>
      match as_Exception e with
      | Some text => handler text st'
      | None => (st', Raised e)
      end
  end.

(** [try: body  except (CalledProcessError, FileNotFoundError): handler] *)
Definition try_except_missing {A} (body : M A) (handler : M A) : M A :=
  fun st =>
  match body st with
  | (st', Done a) => (st', Done a)
  | (st', Raised (CalledProcessError _ _)) => handler st'
  | (st', Raised (FileNotFoundError _)) => handler st'
  | (st', Raised e) => (st', Raised e)
  end.

Definition print (text : str) : M unit := fun st =>
  ({| env := env st; trace := trace st ++ [Printed text] |}, Done tt).

Definition sys_exit {A} (code : Z) : M A := raise (SystemExit code).

(** [subprocess.run(cmd, capture_output=True, check=check)] *)
Definition subprocess_run (check : bool) (cmd : list str)
  : M CompletedProcess := fun st =>
  let '(w, r) := spawn (env st) cmd in
  let st' := {| env := w; trace := trace st ++ [Run cmd] |} in
  match r with
  | inl completed =>
      if check && negb (returncode completed =? 0)%Z then
        (st', Raised (CalledProcessError (returncode completed) cmd))
      else (st', Done completed)
  | inr (NotFound msg) => (st', Raised (FileNotFoundError msg))
  | inr (Failure msg) => (st', Raised (OtherException msg))
  | inr Interrupted => (st', Raised KeyboardInterrupt)
  end.

Definition check_mark : str := [9989%N].         (* U+2705 *)
Definition cross_mark : str := [10060%N].        (* U+274C *)
Definition warning_sign : str := [9888; 65039]%N. (* U+26A0 U+FE0F *)
Definition nl : str := [10%N].

Definition run_command (cmd : list str) (description : str) : M bool :=
  print (lit "Running: " ++ description) ;;
  print (lit "Command: " ++ ApiFunction.join (lit " ") cmd) ;;
  try_except_Exception
    (result <- subprocess_run false cmd ;;
     if (returncode result =? 0)%Z then
       print (check_mark ++ lit " Success") ;;
       (if negb (is_empty (strip (stdout result))) then
          print (lit "Output: " ++ strip (stdout result))
        else ret tt) ;;
       ret true
     else
       print (cross_mark ++ lit " Failed") ;;
       print (lit "Error: " ++ strip (stderr result)) ;;
       ret false)
    (fun e =>
       print (cross_mark ++ lit " Exception: " ++ e) ;;
       ret false).

Definition gcloud_version : list str := [lit "gcloud"; lit "--version"].

Definition gcloud_auth_list : list str :=
  [lit "gcloud"; lit "auth"; lit "list"; lit "--filter=status:ACTIVE";
   lit "--format=value(account)"].

(** The [return False] of the [except] clause leaves the function: the
    authentication check runs only after a successful [gcloud --version]. *)
Definition validate_gcloud_auth : M bool :=
  print (nl ++ [128269%N] ++ lit " Validating gcloud authentication...") ;;
  installed <-
    try_except_missing
      (subprocess_run true gcloud_version ;; ret true)
      (print (cross_mark
              ++ lit " gcloud CLI not found. Please install it first.") ;;
       ret false) ;;
  if negb installed then ret false
  else
    result <- subprocess_run false gcloud_auth_list ;;
    if is_empty (strip (stdout result)) then
      print (cross_mark ++ lit " No active gcloud authentication found.") ;;
      print (lit "Run: gcloud auth login") ;;
      ret false
    else
      print (check_mark ++ lit " Authenticated as: "
             ++ strip (stdout result)) ;;
      ret true.

(** [for x in xs: if not run_command(cmd(x), description(x)): return False]
    followed by [return True]. *)
Fixpoint run_each {X} (cmd : X -> list str) (description : X -> str)
    (xs : list X) : M bool :=
  match xs with
  | [] => ret true
  | x :: rest =>
      ok <- run_command (cmd x) (description x) ;;
      if negb ok then ret false else run_each cmd description rest
  end.

Definition apis : list str :=
  [lit "cloudfunctions.googleapis.com";
   lit "cloudbuild.googleapis.com";
   lit "artifactregistry.googleapis.com"].

Definition set_project_cmd (project : str) : list str :=
  [lit "gcloud"; lit "config"; lit "set"; lit "project"; project].

Definition enable_cmd (api : str) : list str :=
  [lit "gcloud"; lit "services"; lit "enable"; api].

Definition setup_project (project : str) : M bool :=
  print (nl ++ [128640%N] ++ lit " Setting up GCP project: " ++ project) ;;
  ok <- run_command (set_project_cmd project)
                    (lit "Setting project to " ++ project) ;;
  if negb ok then ret false
  else run_each enable_cmd (fun api => lit "Enabling " ++ api) apis.

Definition create_account_cmd : list str :=
  [lit "gcloud"; lit "iam"; lit "service-accounts"; lit "create";
   lit "github-actions"; lit "--display-name"; lit "GitHub Actions"].

Definition create_service_account (project : str) : M bool :=
  print (nl ++ [128100%N]
         ++ lit " Creating service account for project: " ++ project) ;;
  run_command create_account_cmd
              (lit "Creating GitHub Actions service account").

Definition service_account_of (project : str) : str :=
  lit "github-actions@" ++ project ++ lit ".iam.gserviceaccount.com".

Definition roles : list str :=
  [lit "roles/cloudfunctions.admin";
   lit "roles/cloudbuild.builds.editor";
   lit "roles/iam.serviceAccountUser"].

Definition grant_cmd (project role : str) : list str :=
  [lit "gcloud"; lit "projects"; lit "add-iam-policy-binding"; project;
   lit "--member=serviceAccount:" ++ service_account_of project;
   lit "--role=" ++ role].

Definition grant_permissions (project : str) : M bool :=
  print (nl ++ [128272%N]
         ++ lit " Granting IAM permissions for project: " ++ project) ;;
  run_each (grant_cmd project) (fun role => lit "Granting " ++ role) roles.

Definition create_key_cmd (project key : str) : list str :=
  [lit "gcloud"; lit "iam"; lit "service-accounts"; lit "keys"; lit "create";
   key; lit "--iam-account=" ++ service_account_of project].

(** [key] is [str(key_path)] of the [Path] passed in. *)
Definition create_service_account_key (project key : str) : M bool :=
  print (nl ++ [128273%N] ++ lit " Creating service account key: " ++ key) ;;
  run_command (create_key_cmd project key)
              (lit "Creating service account key at " ++ key).

Definition main (args : Namespace) : M unit :=
  print ([127919%N] ++ lit " GCP Deployment Setup for GitHub Actions") ;;
  print (lit "Project ID: " ++ project_id args) ;;
  print (lit "Key file: " ++ key_path args) ;;
  ok <- validate_gcloud_auth ;;
  (if negb ok then sys_exit 1 else ret tt) ;;
  (if negb (skip_project_setup args) then
     ok <- setup_project (project_id args) ;;
     if negb ok then
       print (nl ++ cross_mark ++ lit " Project setup failed") ;;
       sys_exit 1
     else ret tt
   else ret tt) ;;
  ok <- create_service_account (project_id args) ;;
  (if negb ok then
     print (nl ++ warning_sign
            ++ lit "  Service account creation failed (may already exist)")
   else ret tt) ;;
  ok <- grant_permissions (project_id args) ;;
  (if negb ok then
     print (nl ++ cross_mark ++ lit " Permission granting failed") ;;
     sys_exit 1
   else ret tt) ;;
  let key := Path (key_path args) in
  ok <- create_service_account_key (project_id args) key ;;
  (if negb ok then
     print (nl ++ cross_mark ++ lit " Service account key creation failed") ;;
     sys_exit 1
   else ret tt) ;;
  print (nl ++ [127881%N] ++ lit " Setup completed successfully!") ;;
  print (nl ++ [128203%N] ++ lit " Next steps:") ;;
  print (lit "1. Add the contents of '" ++ key
         ++ lit "' as a GitHub secret named 'GCP_SA_KEY'") ;;
  print (lit "2. Update the GitHub workflow with your project ID if needed") ;;
  print (lit "3. Push code to trigger deployment") ;;
  print (nl ++ warning_sign ++ lit "  Remember to secure '" ++ key
         ++ lit "' and don't commit it to version control!").

(** The command lines passed to [subprocess.run], oldest first. *)
Fixpoint commands (events : list event) : list (list str) :=
  match events with
  | [] => []
  | Run cmd :: rest => cmd :: commands rest
  | Printed _ :: rest => commands rest
  end.

Definition launched (st : state) : list (list str) := commands (trace st).

(** The console lines, oldest first. *)
Fixpoint console (events : list event) : list str :=
  match events with
  | [] => []
  | Printed text :: rest => text :: console rest
  | Run _ :: rest => console rest
  end.

(** The commands of a complete run, in the order of the script. *)
Definition setup_cmds (project : str) : list (list str) :=
  set_project_cmd project :: map enable_cmd apis.

Definition grant_cmds (project : str) : list (list str) :=
  map (grant_cmd project) roles.

Definition plan (args : Namespace) : list (list str) :=
  [gcloud_version; gcloud_auth_list]
  ++ (if skip_project_setup args then [] else setup_cmds (project_id args))
  ++ [create_account_cmd]
  ++ grant_cmds (project_id args)
  ++ [create_key_cmd (project_id args) (Path (key_path args))].

End Script.

End Setup.

(** ** Sample evaluations *)

Example split_on_runs_ex :
  Spec.split_on_runs (lit " a  b ") = [[]; lit "a"; lit "b"; []].
Proof. reflexivity. Qed.

Example split_ex :
  split (lit "a  b" ++ [9%N] ++ lit "c") = [lit "a"; lit "b"; lit "c"].
Proof. reflexivity. Qed.

Example wc_ex : get_word_count {| text := lit "  hello   world " |} = 2%Z.
Proof. reflexivity. Qed.

Example post_hello_alice :
  Main.response_of (Main.POST "/hello" (JDict [(lit "name", JStr (lit "Alice"))]))
  = {| status_code := 200;
       content := JDict [(lit "hello", JStr (lit "Alice"))] |}.
Proof. reflexivity. Qed.

Example post_hello_blank :
  status_code
    (Main.response_of
       (Main.POST "/hello" (JDict [(lit "name", JStr (lit "   "))])))
  = 400%Z.
Proof. reflexivity. Qed.

Example post_hello_number :
  Main.app (Main.POST "/hello" (JDict [(lit "name", JInt 7)]))
  = ([], {| status_code := 422;
            content :=
              JDict [(lit "detail",
                      JList [JDict [(lit "type", JStr (lit "string_type"));
                                    (lit "loc", JList [JStr (lit "body");
                                                       JStr (lit "name")])]])]
         |}).
Proof. reflexivity. Qed.

Example unknown_path :
  status_code (Main.response_of (Main.GET "/nowhere")) = 404%Z.
Proof. reflexivity. Qed.

(** * Properties *)

(** ** Scanning *)

Section ScanFacts.
Variable p : N -> bool.

Lemma span_skip s : span p s ++ skip p s = s.
Proof.
  induction s as [|c r IH]; simpl; [reflexivity|].
  destruct (p c); simpl; [now rewrite IH | reflexivity].
Qed.

Lemma forallb_span s : forallb p (span p s) = true.
Proof.
  induction s as [|c r IH]; simpl; [reflexivity|].
  destruct (p c) eqn:E; simpl; [now rewrite E | reflexivity].
Qed.

Lemma skip_head s c r : skip p s = c :: r -> p c = false.
Proof.
  induction s as [|x s IH]; simpl; [discriminate|].
  destruct (p x) eqn:E; [exact IH|].
  intros H; injection H as -> _. exact E.
Qed.

Lemma skip_nil_iff s : skip p s = [] <-> forallb p s = true.
Proof.
  induction s as [|c r IH]; simpl; [tauto|].
  destruct (p c); simpl; [exact IH|].
  split; discriminate.
Qed.

Lemma skip_all s b : forallb p s = true -> skip p (s ++ b) = skip p b.
Proof.
  induction s as [|c r IH]; simpl; [reflexivity|].
  destruct (p c); simpl; [exact IH | discriminate].
Qed.

Lemma skip_app_stop a c b :
  p c = false -> skip p (a ++ c :: b) = skip p a ++ c :: b.
Proof.
  intros Hc. induction a as [|x a IH]; simpl.
  - now rewrite Hc.
  - destruct (p x); [exact IH | reflexivity].
Qed.

Lemma span_app_stop a c b : p c = false -> span p (a ++ c :: b) = span p a.
Proof.
  intros Hc. induction a as [|x a IH]; simpl.
  - now rewrite Hc.
  - destruct (p x); [now rewrite IH | reflexivity].
Qed.

(** What [rstrip_with] removes is a suffix of characters of [p]. *)
Lemma rstrip_with_split s :
  s = rstrip_with p s ++ rev (span p (rev s)).
Proof.
  unfold rstrip_with. rewrite <- rev_app_distr, span_skip.
  now rewrite rev_involutive.
Qed.

Lemma forallb_rev (l : str) : forallb p (rev l) = forallb p l.
Proof.
  induction l as [|c r IH]; simpl; [reflexivity|].
  rewrite forallb_app, IH. simpl. rewrite andb_true_r. apply andb_comm.
Qed.

Lemma rstrip_with_nil_iff s : rstrip_with p s = [] <-> forallb p s = true.
Proof.
  unfold rstrip_with. rewrite <- (forallb_rev s), <- skip_nil_iff.
  split; intros H.
  - apply (f_equal (@rev N)) in H. now rewrite rev_involutive in H.
  - now rewrite H.
Qed.

End ScanFacts.

Lemma is_empty_true {A} (l : list A) : is_empty l = true <-> l = [].
Proof. destruct l; simpl; split; congruence. Qed.

Lemma is_empty_false {A} (l : list A) : is_empty l = false <-> l <> [].
Proof. destruct l; simpl; split; congruence. Qed.

Lemma nonspace_false c : Py_UNICODE_ISSPACE c = true -> nonspace c = false.
Proof. unfold nonspace. now intros ->. Qed.

(** ** [strip] *)

Lemma strip_nil_iff s :
  strip s = [] <-> forallb Py_UNICODE_ISSPACE s = true.
Proof.
  unfold strip, lstrip_with. rewrite rstrip_with_nil_iff.
  rewrite <- (skip_nil_iff Py_UNICODE_ISSPACE s).
  split; intros H.
  - destruct (skip Py_UNICODE_ISSPACE s) as [|c r] eqn:E; [reflexivity|].
    apply skip_head in E. simpl in H. rewrite E in H. discriminate.
  - now rewrite H.
Qed.

Lemma is_empty_strip s :
  is_empty (strip s) = forallb Py_UNICODE_ISSPACE s.
Proof.
  destruct (forallb Py_UNICODE_ISSPACE s) eqn:E.
  - apply is_empty_true, strip_nil_iff, E.
  - apply is_empty_false. intros H. apply strip_nil_iff in H. congruence.
Qed.

(** ** [split] *)

Lemma split_cons c r :
  split (c :: r) =
  if Py_UNICODE_ISSPACE c then split r
  else (c :: span nonspace r) :: split (skip nonspace r).
Proof. simp split. destruct (Py_UNICODE_ISSPACE c); reflexivity. Qed.

Lemma split_spaces_l w b :
  forallb Py_UNICODE_ISSPACE w = true -> split (w ++ b) = split b.
Proof.
  induction w as [|c w IH]; simpl; [reflexivity|].
  intros H. apply andb_prop in H as [Hc Hw].
  rewrite split_cons, Hc. auto.
Qed.

Lemma split_all_space w :
  forallb Py_UNICODE_ISSPACE w = true -> split w = [].
Proof.
  intros H. rewrite <- (app_nil_r w), (split_spaces_l _ [] H).
  now simp split.
Qed.

(** A whitespace character cuts the text: the items on its two sides are
    found independently. *)
Lemma split_app_space a c b :
  Py_UNICODE_ISSPACE c = true -> split (a ++ c :: b) = split a ++ split b.
Proof.
  intros Hc. remember (length a) as n eqn:En.
  revert a En. induction n as [n IH] using lt_wf_ind. intros a En.
  destruct a as [|x a]; simpl.
  - rewrite split_cons, Hc. now simp split.
  - rewrite !split_cons. destruct (Py_UNICODE_ISSPACE x).
    + apply (IH (length a)); [subst; simpl; lia | reflexivity].
    + rewrite (span_app_stop nonspace a c b (nonspace_false c Hc)).
      rewrite (skip_app_stop nonspace a c b (nonspace_false c Hc)).
      simpl. f_equal.
      apply (IH (length (skip nonspace a))); [|reflexivity].
      pose proof (length_skip nonspace a). subst; simpl; lia.
Qed.

Lemma split_spaces_r a w :
  forallb Py_UNICODE_ISSPACE w = true -> split (a ++ w) = split a.
Proof.
  destruct w as [|c w]; simpl; [now rewrite app_nil_r|].
  intros H. apply andb_prop in H as [Hc Hw].
  now rewrite (split_app_space a c w Hc), (split_all_space w Hw), app_nil_r.
Qed.

Lemma split_gap a w b :
  w <> [] -> forallb Py_UNICODE_ISSPACE w = true ->
  split (a ++ w ++ b) = split a ++ split b.
Proof.
  destruct w as [|c w]; [congruence|]. simpl. intros _ H.
  apply andb_prop in H as [Hc Hw].
  now rewrite (split_app_space a c (w ++ b) Hc), (split_spaces_l w b Hw).
Qed.

Lemma split_skip_space s : split (skip Py_UNICODE_ISSPACE s) = split s.
Proof.
  rewrite <- (span_skip Py_UNICODE_ISSPACE s) at 2.
  now rewrite split_spaces_l by apply forallb_span.
Qed.

Lemma split_strip s : split (strip s) = split s.
Proof.
  unfold strip, lstrip_with.
  rewrite <- (split_skip_space s).
  rewrite (rstrip_with_split Py_UNICODE_ISSPACE (skip Py_UNICODE_ISSPACE s)) at 2.
  rewrite split_spaces_r; [reflexivity|].
  rewrite forallb_rev. apply forallb_span.
Qed.

(** The guard of [get_word_count] never changes the result. *)
Lemma get_word_count_len_split d :
  get_word_count d = len (split (text d)).
Proof.
  unfold get_word_count. rewrite is_empty_strip.
  destruct (forallb Py_UNICODE_ISSPACE (text d)) eqn:E; [|reflexivity].
  now rewrite (split_all_space _ E).
Qed.

(** ** Cutting at runs of whitespace *)

Lemma split_on_runs_unfold s :
  Spec.split_on_runs s =
  match skip nonspace s with
  | [] => [s]
  | _ :: r => span nonspace s :: Spec.split_on_runs (skip Py_UNICODE_ISSPACE r)
  end.
Proof.
  funelim (Spec.split_on_runs s).
  - rewrite e. reflexivity.
  - rewrite e. simp split_on_runs. reflexivity.
Qed.

Definition starts_nonspace (s : str) : bool :=
  match s with c :: _ => nonspace c | [] => false end.

Definition ends_nonspace (s : str) : bool := starts_nonspace (rev s).

Lemma nonspace_true c : Py_UNICODE_ISSPACE c = false -> nonspace c = true.
Proof. unfold nonspace. now intros ->. Qed.

Lemma isspace_of_nonspace_false c :
  nonspace c = false -> Py_UNICODE_ISSPACE c = true.
Proof. unfold nonspace. now destruct (Py_UNICODE_ISSPACE c). Qed.

Lemma starts_nonspace_skip s :
  skip Py_UNICODE_ISSPACE s <> [] ->
  starts_nonspace (skip Py_UNICODE_ISSPACE s) = true.
Proof.
  destruct (skip Py_UNICODE_ISSPACE s) as [|c r] eqn:E; [congruence|].
  intros _. simpl. apply nonspace_true. exact (skip_head _ _ _ _ E).
Qed.

Lemma ends_nonspace_app a b :
  b <> [] -> ends_nonspace (a ++ b) = ends_nonspace b.
Proof.
  intros Hb. unfold ends_nonspace. rewrite rev_app_distr.
  destruct (rev b) as [|y t] eqn:E; [|reflexivity].
  apply (f_equal (@rev N)) in E. rewrite rev_involutive in E. contradiction.
Qed.

Lemma ends_nonspace_all_space w :
  forallb Py_UNICODE_ISSPACE w = true -> ends_nonspace w = false.
Proof.
  intros H. unfold ends_nonspace. rewrite <- forallb_rev in H.
  destruct (rev w) as [|y t]; [reflexivity|]. simpl in *.
  apply andb_prop in H as [Hy _]. now apply nonspace_false.
Qed.

(** On a text that begins and ends with a non-whitespace character, cutting
    at runs of whitespace gives the items of [split]. *)
Lemma split_on_runs_trimmed s :
  starts_nonspace s = true -> ends_nonspace s = true ->
  Spec.split_on_runs s = split s.
Proof.
  remember (length s) as n eqn:En. revert s En.
  induction n as [n IH] using lt_wf_ind. intros s En Hs He.
  destruct s as [|x s]; [discriminate|]. simpl in Hs.
  rewrite split_on_runs_unfold, split_cons. simpl. rewrite Hs.
  unfold nonspace in Hs. apply negb_true_iff in Hs. rewrite Hs.
  destruct (skip nonspace s) as [|c r] eqn:E.
  - pose proof (span_skip nonspace s) as D. rewrite E, app_nil_r in D.
    rewrite D. now simp split.
  - f_equal.
    pose proof (isspace_of_nonspace_false c (skip_head _ _ _ _ E)) as Hc.
    rewrite split_cons, Hc, <- split_skip_space.
    assert (He' : ends_nonspace (c :: r) = true).
    { rewrite <- He, <- (span_skip nonspace s), E.
      rewrite (app_comm_cons _ _ x). symmetry.
      apply ends_nonspace_app. discriminate. }
    assert (Hne : skip Py_UNICODE_ISSPACE r <> []).
    { intros Hnil. apply skip_nil_iff in Hnil.
      rewrite (ends_nonspace_all_space (c :: r)) in He'; [discriminate|].
      simpl. now rewrite Hc, Hnil. }
    apply (IH (length (skip Py_UNICODE_ISSPACE r))); [|reflexivity| |].
    + pose proof (length_skip Py_UNICODE_ISSPACE r).
      pose proof (length_skip nonspace s) as L. rewrite E in L.
      subst n. simpl in *. lia.
    + now apply starts_nonspace_skip.
    + rewrite <- He'.
      rewrite <- (span_skip Py_UNICODE_ISSPACE r) at 2.
      rewrite (app_comm_cons _ _ c). symmetry.
      now apply ends_nonspace_app.
Qed.

Lemma starts_nonspace_strip s :
  strip s <> [] -> starts_nonspace (strip s) = true.
Proof.
  unfold strip, lstrip_with. intros H.
  pose proof (rstrip_with_split Py_UNICODE_ISSPACE
                (skip Py_UNICODE_ISSPACE s)) as D.
  destruct (rstrip_with Py_UNICODE_ISSPACE (skip Py_UNICODE_ISSPACE s))
    as [|c r]; [congruence|].
  simpl. assert (Hne : skip Py_UNICODE_ISSPACE s <> []).
  { rewrite D. discriminate. }
  apply starts_nonspace_skip in Hne. rewrite D in Hne. exact Hne.
Qed.

Lemma ends_nonspace_strip s :
  strip s <> [] -> ends_nonspace (strip s) = true.
Proof.
  unfold strip, rstrip_with, ends_nonspace. rewrite rev_involutive.
  intros H. apply starts_nonspace_skip. intros E. rewrite E in H.
  now apply H.
Qed.

Lemma split_on_runs_strip s :
  strip s <> [] -> Spec.split_on_runs (strip s) = split s.
Proof.
  intros H. rewrite <- split_strip.
  apply split_on_runs_trimmed;
    [now apply starts_nonspace_strip | now apply ends_nonspace_strip].
Qed.

(** ** The word count *)

(** C1. For every text, the word count is 0 when the text is empty or only
    whitespace, which is exactly when trimming it leaves nothing; otherwise
    it is the number of tokens got by cutting the trimmed text at its runs
    of whitespace, and those tokens are the items counted by the code. *)
Theorem C1_word_count_trim_then_split_on_runs (t : str) :
  get_word_count {| text := t |} = Spec.word_count t
  /\ is_empty (strip t) = forallb Py_UNICODE_ISSPACE t
  /\ get_word_count {| text := t |}
     = (if forallb Py_UNICODE_ISSPACE t then 0%Z
        else len (Spec.split_on_runs (strip t)))
  /\ (if is_empty (strip t) then True
      else Spec.split_on_runs (strip t) = split t).
Proof.
  assert (G : if is_empty (strip t) then True
              else Spec.split_on_runs (strip t) = split t).
  { destruct (is_empty (strip t)) eqn:E; [exact I|].
    apply split_on_runs_strip. now apply is_empty_false. }
  assert (W : get_word_count {| text := t |} = Spec.word_count t).
  { unfold get_word_count, Spec.word_count. simpl.
    destruct (is_empty (strip t)); [reflexivity | now rewrite G]. }
  repeat split; try assumption.
  - apply is_empty_strip.
  - rewrite W. unfold Spec.word_count. cbv zeta.
    now rewrite is_empty_strip.
Qed.

(** C9. The whitespace-only guard of [get_word_count] is redundant: the
    guarded implementation and the guard-free [len(text.split())] agree on
    every document. *)
Theorem C9_guard_is_redundant (d : TextDocument) :
  get_word_count d = Spec.unguarded_word_count d.
Proof. apply get_word_count_len_split. Qed.

(** C10. Joining two texts with one space adds their word counts. *)
Theorem C10_word_count_of_space_joined (a b : str) :
  get_word_count {| text := a ++ lit " " ++ b |}
  = (get_word_count {| text := a |} + get_word_count {| text := b |})%Z.
Proof.
  rewrite !get_word_count_len_split. simpl.
  rewrite (split_app_space a 32%N b eq_refl).
  unfold len. rewrite length_app. lia.
Qed.

(** C8. Extra whitespace put anywhere into the gap between two adjacent
    tokens leaves the word count unchanged.  [before] ends with the first
    token and [after] begins with the second; [gap_l ++ gap_r] is the
    whitespace between them and [extra] the inserted whitespace. *)
Theorem C8_word_count_extra_interior_whitespace
    (before gap_l extra gap_r after : str) :
  gap_l ++ gap_r <> [] ->
  forallb Py_UNICODE_ISSPACE gap_l = true ->
  forallb Py_UNICODE_ISSPACE gap_r = true ->
  forallb Py_UNICODE_ISSPACE extra = true ->
  get_word_count {| text := before ++ gap_l ++ extra ++ gap_r ++ after |}
  = get_word_count {| text := before ++ (gap_l ++ gap_r) ++ after |}.
Proof.
  intros Hne Hl Hr He. rewrite !get_word_count_len_split. simpl. f_equal.
  rewrite (split_gap before (gap_l ++ gap_r) after Hne)
    by (rewrite forallb_app, Hl, Hr; reflexivity).
  replace (gap_l ++ extra ++ gap_r ++ after)
    with ((gap_l ++ extra ++ gap_r) ++ after)
    by (now rewrite <- !app_assoc).
  apply split_gap.
  - intros E. apply Hne.
    destruct gap_l; [|discriminate]. simpl in *.
    now apply app_eq_nil in E as [_ E].
  - now rewrite !forallb_app, Hl, He, Hr.
Qed.

Lemma C8_witness :
  (lit " " ++ lit " " <> []
   /\ forallb Py_UNICODE_ISSPACE (lit " ") = true
   /\ forallb Py_UNICODE_ISSPACE [9%N; 10%N] = true)
  /\ get_word_count
       {| text := lit "a b" ++ lit " " ++ [9%N; 10%N] ++ lit " " ++ lit "c d" |}
     = get_word_count
       {| text := lit "a b" ++ (lit " " ++ lit " ") ++ lit "c d" |}.
Proof.
  split; [repeat split; (discriminate || reflexivity)|].
  apply (C8_word_count_extra_interior_whitespace
           (lit "a b") (lit " ") [9%N; 10%N] (lit " ") (lit "c d"));
    [discriminate | reflexivity | reflexivity | reflexivity].
Defined.

(** ** The application *)

Import Pydantic.

Lemma str_eqb_refl s : str_eqb s s = true.
Proof.
  induction s as [|c r IH]; simpl; [reflexivity|].
  now rewrite N.eqb_refl, IH.
Qed.

Lemma str_eqb_eq a b : str_eqb a b = true <-> a = b.
Proof.
  split; [|intros ->; apply str_eqb_refl].
  revert b. induction a as [|x a IH]; intros [|y b]; simpl;
    try discriminate; [reflexivity|].
  intros H. apply andb_prop in H as [Hx Hr].
  apply N.eqb_eq in Hx. now rewrite Hx, (IH b Hr).
Qed.

(** A body that is an object with just the field, holding a string. *)
Definition body_of (f : StrField) (s : str) : json :=
  JDict [(field_name f, JStr s)].

Lemma body_param_body_of f s :
  body_param f (Some (body_of f s)) =
  if negb (at_least (min_length f) (length s)) then
    Raise (RequestValidationError
             [{| type := lit "string_too_short";
                 loc := [lit "body"; field_name f] |}])
  else if negb (at_most (max_length f) (length s)) then
    Raise (RequestValidationError
             [{| type := lit "string_too_long";
                 loc := [lit "body"; field_name f] |}])
  else Return s.
Proof.
  unfold body_param, body_of, validate_model, get. simpl.
  rewrite str_eqb_refl. simpl.
  destruct (at_least (min_length f) (length s)); simpl; [|reflexivity].
  destruct (at_most (max_length f) (length s)); reflexivity.
Qed.

(** Whatever fails body validation is answered by the framework's handler
    for [RequestValidationError], and the endpoint function is not
    entered. *)
Lemma body_param_raises f b e :
  body_param f b = Raise e -> exists errs, e = RequestValidationError errs.
Proof.
  unfold body_param. destruct b as [v|].
  - destruct (validate_model f [lit "body"] v) as [errs|s]; [|discriminate].
    intros H; injection H as <-. now exists errs.
  - intros H; injection H as <-. eauto.
Qed.

Lemma respond_request_validation errs :
  Main.respond (Raise (RequestValidationError errs)) =
  {| status_code := 422;
     content := JDict [(lit "detail", JList (map error_json errs))] |}.
Proof. reflexivity. Qed.

Lemma respond_http_exception code info :
  Main.respond (Raise (HTTPException code info)) =
  {| status_code := code; content := JDict [(lit "detail", JStr info)] |}.
Proof. reflexivity. Qed.

Lemma respond_validation_error errs :
  Main.respond (Raise (ValidationError errs)) =
  Main.validation_exception_handler (ValidationError errs).
Proof. reflexivity. Qed.

Lemma respond_other what :
  Main.respond (Raise (OtherException what)) =
  {| status_code := 500;
     content := JDict [(lit "detail", JStr (lit "Internal server error"))] |}.
Proof. reflexivity. Qed.

Lemma run_validation_failure ep b errs entered :
  Main.run ep b = (entered, Raise (RequestValidationError errs)) ->
  entered = [].
Proof.
  destruct ep; simpl.
  - discriminate.
  - destruct (body_param Hello.HelloRequest_name b) as [s|e].
    + unfold Hello.post_hello. simpl.
      destruct (is_empty (strip s)); discriminate.
    + now intros H; injection H as <- _.
  - destruct (body_param Documents.WordCountRequest_text b) as [s|e].
    + discriminate.
    + now intros H; injection H as <- _.
  - discriminate.
Qed.


Definition word_count_body (t : str) : json :=
  body_of Documents.WordCountRequest_text t.






Definition word_count_200 (n : Z) : JSONResponse :=
  {| status_code := 200; content := JDict [(lit "word_count", JInt n)] |}.

Lemma get_word_count_nonneg d : (0 <= get_word_count d)%Z.
Proof. rewrite get_word_count_len_split. unfold len. lia. Qed.

(** Every answer of POST /documents/word_count is either the count of the
    validated text or the framework's 422. *)
Lemma count_words_response b :
  (exists t, Main.app (Main.POST "/documents/word_count" b)
             = ([Main.CountWords],
                word_count_200 (get_word_count {| text := t |})))
  \/ (exists errs, Main.app (Main.POST "/documents/word_count" b)
                   = ([], Main.respond (Raise (RequestValidationError errs)))).
Proof.
  unfold Main.app.
  change (Main.route (Main.POST "/documents/word_count" b))
    with (Return Main.CountWords).
  cbv beta iota. unfold Main.run, Main.POST, Main.body.
  destruct (body_param Documents.WordCountRequest_text (Some b))
    as [t|e] eqn:E.
  - left. exists t. reflexivity.
  - right. destruct (body_param_raises _ _ _ E) as [errs ->].
    exists errs. reflexivity.
Qed.

Lemma count_words_valid t :
  1 <= length t ->
  Main.app (Main.POST "/documents/word_count" (word_count_body t)) =
  ([Main.CountWords], word_count_200 (get_word_count {| text := t |})).
Proof.
  intros Hlo. unfold Main.app.
  change (Main.route (Main.POST "/documents/word_count" (word_count_body t)))
    with (Return Main.CountWords).
  cbv beta iota. unfold Main.run, Main.POST, Main.body, word_count_body.
  rewrite body_param_body_of.
  change (min_length Documents.WordCountRequest_text) with (Some 1).
  change (max_length Documents.WordCountRequest_text) with (@None nat).
  unfold at_least, at_most.
  replace (1 <=? length t) with true by (symmetry; now apply Nat.leb_le).
  reflexivity.
Qed.

(** C5. POST /documents/word_count: the empty text is refused by the
    minimum-length check of the schema, with status 422 and without the
    handler being entered; a text of one or more whitespace characters is
    accepted and answered 200 with [word_count] 0; and whatever the body,
    an answer with status 200 carries an integer [word_count] that is not
    negative. *)
Theorem C5_word_count_endpoint :
  (body_param Documents.WordCountRequest_text (Some (word_count_body []))
   = Raise (RequestValidationError
              [{| type := lit "string_too_short";
                  loc := [lit "body"; lit "text"] |}])
   /\ fst (Main.app (Main.POST "/documents/word_count" (word_count_body [])))
      = []
   /\ status_code
        (Main.response_of
           (Main.POST "/documents/word_count" (word_count_body [])))
      = 422%Z)
  /\ (forall t : str,
        1 <= length t -> forallb Py_UNICODE_ISSPACE t = true ->
        Main.response_of (Main.POST "/documents/word_count" (word_count_body t))
        = word_count_200 0)
  /\ (forall b : json,
        status_code (Main.response_of (Main.POST "/documents/word_count" b))
        = 200%Z ->
        exists n : Z,
          Main.response_of (Main.POST "/documents/word_count" b)
          = word_count_200 n /\ (0 <= n)%Z).
Proof.
  split; [repeat split|split].
  - intros t Hlen Hws. unfold Main.response_of.
    rewrite (count_words_valid t Hlen). simpl. f_equal.
    unfold get_word_count. simpl. now rewrite is_empty_strip, Hws.
  - intros b. unfold Main.response_of.
    destruct (count_words_response b) as [[t ->]|[errs ->]]; simpl.
    + intros _. eexists. split; [reflexivity | apply get_word_count_nonneg].
    + discriminate.
Qed.

Lemma C5_witness :
  (1 <= length (lit "   ")
   /\ forallb Py_UNICODE_ISSPACE (lit "   ") = true
   /\ Main.response_of
        (Main.POST "/documents/word_count" (word_count_body (lit "   ")))
      = word_count_200 0)
  /\ (status_code
        (Main.response_of
           (Main.POST "/documents/word_count" (word_count_body (lit "a b"))))
      = 200%Z
      /\ exists n : Z,
          Main.response_of
            (Main.POST "/documents/word_count" (word_count_body (lit "a b")))
          = word_count_200 n /\ (0 <= n)%Z).
Proof.
  destruct C5_word_count_endpoint as [_ [Hws Hok]].
  split.
  - split; [simpl; lia|]. split; [reflexivity|].
    apply (Hws (lit "   ")); [simpl; lia | reflexivity].
  - split; [reflexivity|].
    apply (Hok (word_count_body (lit "a b"))). reflexivity.
Defined.

Definition health_200 : JSONResponse :=
  {| status_code := 200;
     content := JDict [(lit "status", JStr (lit "healthy"));
                       (lit "version", JStr Main.VERSION)] |}.

Definition hello_world_200 : JSONResponse :=
  {| status_code := 200;
     content := JDict [(lit "text", JStr (lit "Hello World!"))] |}.

(** C6. Whatever requests were served before, GET /health is answered 200
    with [status] "healthy" and the version constant, and GET /hello is
    answered 200 with the text "Hello World!". *)
Theorem C6_health_and_hello_are_fixed (history : list Main.Request) :
  last (Main.serve (history ++ [Main.GET "/health"])) FastAPI.server_error
  = health_200
  /\ last (Main.serve (history ++ [Main.GET "/hello"])) FastAPI.server_error
     = hello_world_200
  /\ Main.VERSION = lit "0.0.9".
Proof.
  unfold Main.serve. rewrite !map_app. simpl. rewrite !last_last.
  repeat split.
Qed.

(** C3, at a body without the [name] field.  The failure of the body
    parameter raises [RequestValidationError]; its resolution order reaches
    the framework's handler for that class before anything registered in
    main.py, so the answer is 422 with the error list itself under
    [detail].  The body that [validation_exception_handler] builds, with
    [detail] "Validation error" and the list under [errors], is not
    returned.  The endpoint function is not entered. *)
Theorem C3_missing_field_answered_by_framework_handler :
  let missing_name :=
    [{| type := lit "missing"; loc := [lit "body"; lit "name"] |}] in
  Main.app (Main.POST "/hello" (JDict []))
  = ([], {| status_code := 422;
            content := JDict [(lit "detail",
                               JList (map error_json missing_name))] |})
  /\ Main.response_of (Main.POST "/hello" (JDict []))
     <> {| status_code := 422;
           content := JDict [(lit "detail", JStr (lit "Validation error"));
                             (lit "errors",
                              JList (map error_json missing_name))] |}.
Proof.
  split; [reflexivity|]. vm_compute. discriminate.
Qed.

(** ** The serverless adapter *)

Module AdapterFacts.

Import ApiFunction.

(** [b'{"detail": "Internal server error"}'] *)
Definition error_body : bytes :=
  lit "{" ++ dq ++ lit "detail" ++ dq ++ lit ": "
  ++ dq ++ lit "Internal server error" ++ dq ++ lit "}".

Definition fallback : reply :=
  (error_body, 500%Z, [(lit "content-type", lit "application/json")]).

Lemma except_block_fallback : except_block = Ok fallback.
Proof. reflexivity. Qed.

Section WithClient.
Variable client_request :
  str -> str -> headers_dict -> option bytes -> outcome Response.

Lemma api_function_caught request what :
  try_block client_request request = Raised (Exception what) ->
  api_function client_request request = Ok fallback.
Proof.
  intros H. unfold api_function. rewrite H. apply except_block_fallback.
Qed.

Lemma api_function_success request response :
  dispatch client_request request = Ok response ->
  api_function client_request request
  = Ok (content response, status_code response,
        dict (response_headers response)).
Proof.
  intros H. unfold api_function, try_block. rewrite H. reflexivity.
Qed.

(** What is not an [Exception] is not caught. *)
Lemma api_function_system_exiting request what :
  dispatch client_request request = Raised (SystemExiting what) ->
  api_function client_request request = Raised (SystemExiting what).
Proof.
  intros H. unfold api_function, try_block. rewrite H. reflexivity.
Qed.
End WithClient.

Lemma rstrip_with_app_stop p a c w :
  p c = false -> forallb p w = true ->
  rstrip_with p (a ++ c :: w) = a ++ [c].
Proof.
  intros Hc Hw. unfold rstrip_with.
  rewrite rev_app_distr. simpl. rewrite <- app_assoc. simpl.
  rewrite skip_all by now rewrite forallb_rev.
  simpl. rewrite Hc. simpl. now rewrite rev_involutive.
Qed.

Lemma rstrip_with_fixed p a c :
  p c = false -> rstrip_with p (a ++ [c]) = a ++ [c].
Proof. intros Hc. now apply rstrip_with_app_stop. Qed.

Definition ends_with_qmark (s : str) : bool :=
  match rev s with c :: _ => N.eqb c 63 | [] => false end.

(** With an empty query string the [?] that ends the full path is
    removed, and the url is the path (a path that does not itself end
    with [?]). *)
Lemma url_of_no_query request :
  query_string request = [] ->
  path request <> [] -> ends_with_qmark (path request) = false ->
  url_of request = path request.
Proof.
  unfold url_of, full_path, ends_with_qmark, Py.rstrip. intros -> Hne He.
  destruct (rev (path request)) as [|c t] eqn:E.
  - apply (f_equal (@rev N)) in E. rewrite rev_involutive in E.
    contradiction.
  - apply (f_equal (@rev N)) in E. rewrite rev_involutive in E. simpl in E.
    rewrite E. rewrite <- app_assoc. simpl.
    apply rstrip_with_app_stop; simpl; [|reflexivity].
    now rewrite He.
Qed.

(** A query string that does not end with [?] is passed on whole. *)
Lemma url_of_query_kept request :
  query_string request <> [] ->
  ends_with_qmark (query_string request) = false ->
  url_of request = full_path request.
Proof.
  unfold url_of, full_path, ends_with_qmark, Py.rstrip. intros Hne He.
  destruct (rev (query_string request)) as [|c t] eqn:E.
  - apply (f_equal (@rev N)) in E. rewrite rev_involutive in E.
    contradiction.
  - apply (f_equal (@rev N)) in E. rewrite rev_involutive in E. simpl in E.
    rewrite E, !app_assoc.
    apply rstrip_with_fixed. simpl. now rewrite He.
Qed.

(** [dict] keeps a list of items with distinct names as it is. *)
Lemma dict_set_fresh k v d :
  ~ In k (map fst d) -> dict_set k v d = d ++ [(k, v)].
Proof.
  induction d as [|[k' v'] d IH]; simpl; [reflexivity|].
  intros H. destruct (str_eqb k' k) eqn:E.
  - apply str_eqb_eq in E. tauto.
  - rewrite IH by tauto. reflexivity.
Qed.

Lemma dict_from acc items :
  NoDup (map fst (acc ++ items)) ->
  fold_left (fun d kv => dict_set (fst kv) (snd kv) d) items acc
  = acc ++ items.
Proof.
  revert acc. induction items as [|[k v] items IH]; intros acc H; simpl.
  - now rewrite app_nil_r.
  - rewrite dict_set_fresh.
    + rewrite IH; rewrite <- app_assoc; [reflexivity | exact H].
    + rewrite map_app in H. simpl in H.
      apply NoDup_remove_2 in H. intros Hin. apply H.
      apply in_or_app. now left.
Qed.

Lemma dict_distinct items : NoDup (map fst items) -> dict items = items.
Proof. intros H. apply (dict_from [] items H). Qed.

(** A client whose every dispatch fails. *)
Definition failing_client
  : str -> str -> headers_dict -> option bytes -> outcome Response :=
  fun _ _ _ _ => Raised (Exception (lit "ConnectionError")).

Definition get_request (p q : string) : PlatformRequest :=
  {| method := lit "GET"; path := lit p; query_string := lit q;
     headers := [(lit "Accept", lit "*/*")];
     get_data := Some (Ok []) |}.

End AdapterFacts.

(** C2. When the dispatch of a platform request against the application
    raises an exception, the entry point returns the bytes
    [{"detail": "Internal server error"}], the status 500 and the single
    header [content-type: application/json]. *)
Theorem C2_adapter_fallback_on_exception
    (client_request :
       str -> str -> ApiFunction.headers_dict -> option bytes ->
       ApiFunction.outcome ApiFunction.Response)
    (request : ApiFunction.PlatformRequest) (what : str) :
  ApiFunction.dispatch client_request request
  = ApiFunction.Raised (ApiFunction.Exception what) ->
  ApiFunction.api_function client_request request
  = ApiFunction.Ok
      (lit "{" ++ dq ++ lit "detail" ++ dq ++ lit ": "
       ++ dq ++ lit "Internal server error" ++ dq ++ lit "}",
       500%Z,
       [(lit "content-type", lit "application/json")]).
Proof.
  intros H. apply (AdapterFacts.api_function_caught client_request request what).
  unfold ApiFunction.try_block. rewrite H. reflexivity.
Qed.

Lemma C2_witness :
  ApiFunction.dispatch AdapterFacts.failing_client
    (AdapterFacts.get_request "/hello" "")
  = ApiFunction.Raised (ApiFunction.Exception (lit "ConnectionError"))
  /\ ApiFunction.api_function AdapterFacts.failing_client
       (AdapterFacts.get_request "/hello" "")
     = ApiFunction.Ok AdapterFacts.fallback.
Proof.
  split; [reflexivity|].
  apply (C2_adapter_fallback_on_exception AdapterFacts.failing_client
           (AdapterFacts.get_request "/hello" "") (lit "ConnectionError")).
  reflexivity.
Defined.

(** C7, at GET /hello?q=what? .  The query string is present and ends with
    a question mark; [rstrip] removes that character too, so the url that
    is dispatched is not the full path. *)
Theorem C7_rstrip_cuts_into_query_string :
  let request := AdapterFacts.get_request "/hello" "q=what?" in
  ApiFunction.query_string request = lit "q=what?"
  /\ ApiFunction.full_path request = lit "/hello?q=what?"
  /\ ApiFunction.url_of request = lit "/hello?q=what"
  /\ ApiFunction.url_of request <> ApiFunction.full_path request.
Proof.
  repeat split. vm_compute. discriminate.
Qed.

(** ** The deployment script *)

Module SetupFacts.

Import Setup.

(** Exceptions that can leave a function of the script. *)
Definition only_interrupt (e : exc) : bool :=
  match e with KeyboardInterrupt => true | _ => false end.

Definition launch_errors (e : exc) : bool :=
  match e with
  | FileNotFoundError _ | OtherException _ | KeyboardInterrupt => true
  | CalledProcessError _ _ | SystemExit _ => false
  end.

Definition exit_1_or_launch_error (e : exc) : bool :=
  match e with
  | SystemExit code => (code =? 1)%Z
  | _ => launch_errors e
  end.

Section Facts.

Variable world : Type.
Variable spawn :
  world -> list str -> world * (CompletedProcess + launch_failure).
Variable called_process_text : Z -> list str -> str.
Variable Path : str -> str.

Local Abbreviation state := (Setup.state world).
Local Abbreviation M := (Setup.M world).
Local Abbreviation ret := (@Setup.ret world _).
Local Abbreviation bind := (@Setup.bind world _ _).
Local Abbreviation print := (Setup.print world).
Local Abbreviation sys_exit := (@Setup.sys_exit world _).
Local Abbreviation launched := (@Setup.launched world).
Local Abbreviation env := (@Setup.env world).
Local Abbreviation trace := (@Setup.trace world).
Local Abbreviation subprocess_run := (Setup.subprocess_run world spawn).
Local Abbreviation run_command := (Setup.run_command world spawn called_process_text).
Local Abbreviation run_each := (@Setup.run_each world spawn called_process_text _).
Local Abbreviation validate_gcloud_auth := (Setup.validate_gcloud_auth world spawn).
Local Abbreviation setup_project :=
  (Setup.setup_project world spawn called_process_text).
Local Abbreviation create_service_account :=
  (Setup.create_service_account world spawn called_process_text).
Local Abbreviation grant_permissions :=
  (Setup.grant_permissions world spawn called_process_text).
Local Abbreviation create_service_account_key :=
  (Setup.create_service_account_key world spawn called_process_text).
Local Abbreviation main := (Setup.main world spawn called_process_text Path).

Lemma commands_app a b : commands (a ++ b) = commands a ++ commands b.
Proof.
  induction a as [|[t|c] a IH]; simpl; [reflexivity | exact IH |].
  now rewrite IH.
Qed.

Lemma console_app a b : console (a ++ b) = console a ++ console b.
Proof.
  induction a as [|[t|c] a IH]; simpl; [reflexivity | | exact IH].
  now rewrite IH.
Qed.

Lemma launched_print (st : state) text :
  launched (fst (print text st)) = launched st.
Proof.
  unfold Setup.launched, Setup.print. simpl. rewrite commands_app. simpl.
  apply app_nil_r.
Qed.

(** [m] runs an initial segment of [cmds], all of it when it returns a
    value accepted by [good]; what it raises is accepted by [allowed]. *)
Definition follows {A} (cmds : list (list str)) (good : A -> bool)
    (allowed : exc -> bool) (m : M A) : Prop :=
  forall (st st' : state) r, m st = (st', r) ->
    (exists ran rest,
        cmds = ran ++ rest /\ launched st' = launched st ++ ran)
    /\ match r with
       | Done a => good a = true -> launched st' = launched st ++ cmds
       | Raised e => allowed e = true
       end.

(** [m] launches nothing and does not return a value accepted by
    [good]. *)
Definition stops {A} (good : A -> bool) (allowed : exc -> bool) (m : M A)
  : Prop :=
  forall (st st' : state) r, m st = (st', r) ->
    launched st' = launched st
    /\ match r with
       | Done a => good a = false
       | Raised e => allowed e = true
       end.

Lemma follows_bind {A B} c1 c2 (g1 : A -> bool) (g2 : B -> bool) al
    (m : M A) (k : A -> M B) :
  follows c1 g1 al m ->
  (forall a, g1 a = true -> follows c2 g2 al (k a)) ->
  (forall a, g1 a = false -> stops g2 al (k a)) ->
  follows (c1 ++ c2) g2 al (bind m k).
Proof.
  intros H1 H2 H3 st st' r E. unfold Setup.bind in E.
  destruct (m st) as [st1 [a|e]] eqn:E1.
  - destruct (H1 _ _ _ E1) as [(ran & rest & Hc & Hl) Hd].
    destruct (g1 a) eqn:G.
    + specialize (Hd eq_refl).
      destruct (H2 a G _ _ _ E) as [(ran2 & rest2 & Hc2 & Hl2) Hr]. split.
      * exists (c1 ++ ran2), rest2. split.
        -- now rewrite Hc2, app_assoc.
        -- now rewrite Hl2, Hd, app_assoc.
      * destruct r as [b|e]; [|exact Hr].
        intros G2. now rewrite (Hr G2), Hd, app_assoc.
    + destruct (H3 a G _ _ _ E) as [Hq Hr]. split.
      * exists ran, (rest ++ c2). split.
        -- now rewrite Hc, app_assoc.
        -- now rewrite Hq.
      * destruct r as [b|e]; [|exact Hr].
        rewrite Hr. discriminate.
  - injection E as <- <-.
    destruct (H1 _ _ _ E1) as [(ran & rest & Hc & Hl) Hd]. split; [|exact Hd].
    exists ran, (rest ++ c2). split; [now rewrite Hc, app_assoc | exact Hl].
Qed.

Lemma follows_nil_bind {A B} c (g : B -> bool) al (m : M A) (k : A -> M B) :
  follows [] (fun _ => true) al m ->
  (forall a, follows c g al (k a)) ->
  follows c g al (bind m k).
Proof.
  intros H1 H2. apply (follows_bind [] c (fun _ => true) g al); auto.
  discriminate.
Qed.

Lemma follows_ret {A} (g : A -> bool) al (a : A) :
  follows [] g al (ret a).
Proof.
  intros st st' r E. injection E as <- <-. split.
  - exists [], []. split; [reflexivity | now rewrite app_nil_r].
  - intros _. now rewrite app_nil_r.
Qed.

Lemma follows_print (g : unit -> bool) al text :
  follows [] g al (print text).
Proof.
  intros st st' r E.
  pose proof (launched_print st text) as L. rewrite E in L. simpl in L.
  unfold Setup.print in E. injection E as _ <-. split.
  - exists [], []. split; [reflexivity | now rewrite app_nil_r].
  - intros _. now rewrite app_nil_r.
Qed.

Lemma stops_ret {A} (g : A -> bool) al (a : A) :
  g a = false -> stops g al (ret a).
Proof. intros G st st' r E. injection E as <- <-. now split. Qed.

Lemma stops_print_exit {A} (g : A -> bool) text :
  stops g exit_1_or_launch_error
    (bind (print text) (fun _ => sys_exit 1) : M A).
Proof.
  intros st st' r E.
  pose proof (launched_print st text) as L.
  unfold Setup.bind, Setup.print, Setup.sys_exit, Setup.raise in *. simpl in *.
  injection E as <- <-. now split.
Qed.

Lemma stops_exit {A} (g : A -> bool) :
  stops g exit_1_or_launch_error (sys_exit 1 : M A).
Proof. intros st st' r E. injection E as <- <-. now split. Qed.

Lemma follows_weaken {A} c (g g' : A -> bool) (al al' : exc -> bool)
    (m : M A) :
  (forall a, g' a = true -> g a = true) ->
  (forall e, al e = true -> al' e = true) ->
  follows c g al m -> follows c g' al' m.
Proof.
  intros Hg Ha H st st' r E. destruct (H _ _ _ E) as [Hp Hr].
  split; [exact Hp|]. destruct r; auto.
Qed.

(** What [run_command] returns, read off the outcome of the launch. *)
Definition run_command_result (r : CompletedProcess + launch_failure)
  : result bool :=
  match r with
  | inl completed => Done (returncode completed =? 0)%Z
  | inr Interrupted => Raised KeyboardInterrupt
  | inr (NotFound _) | inr (Failure _) => Done false
  end.

Lemma run_command_spec cmd description (st : state) :
  exists st',
    run_command cmd description st
    = (st', run_command_result (snd (spawn (env st) cmd)))
    /\ env st' = fst (spawn (env st) cmd)
    /\ launched st' = launched st ++ [cmd].
Proof.
  unfold Setup.run_command, Setup.try_except_Exception, Setup.bind,
    Setup.print, Setup.subprocess_run, Setup.ret, Setup.launched.
  cbn [Setup.env Setup.trace].
  destruct (spawn (env st) cmd) as [w [cp|[msg|msg|]]]; cbn [fst snd andb].
  - unfold run_command_result.
    destruct (returncode cp =? 0)%Z;
      [destruct (negb (is_empty (strip (stdout cp))))|];
      cbn [Setup.env Setup.trace Setup.as_Exception]; eexists;
      (split; [reflexivity|]); (split; [reflexivity|]);
      cbn [Setup.env Setup.trace]; rewrite !commands_app; cbn [commands app];
      now rewrite ?app_nil_r.
  - cbn [Setup.env Setup.trace Setup.as_Exception]. eexists.
    (split; [reflexivity|]); (split; [reflexivity|]).
    cbn [Setup.env Setup.trace]. rewrite !commands_app. cbn [commands app].
    now rewrite ?app_nil_r.
  - cbn [Setup.env Setup.trace Setup.as_Exception]. eexists.
    (split; [reflexivity|]); (split; [reflexivity|]).
    cbn [Setup.env Setup.trace]. rewrite !commands_app. cbn [commands app].
    now rewrite ?app_nil_r.
  - cbn [Setup.env Setup.trace Setup.as_Exception]. eexists.
    (split; [reflexivity|]); (split; [reflexivity|]).
    cbn [Setup.env Setup.trace]. rewrite !commands_app. cbn [commands app].
    now rewrite ?app_nil_r.
Qed.

Lemma run_command_cases cmd description (st st' : state) r :
  run_command cmd description st = (st', r) ->
  launched st' = launched st ++ [cmd]
  /\ (r = Raised KeyboardInterrupt \/ exists b, r = Done b).
Proof.
  intros E. destruct (run_command_spec cmd description st) as (st1 & E1 & _ & L).
  rewrite E in E1. injection E1 as <- ->. split; [exact L|].
  destruct (snd (spawn (env st) cmd)) as [cp|[msg|msg|]]; simpl; eauto.
Qed.

Lemma follows_run_command cmd description :
  follows [cmd] (fun _ => true) only_interrupt (run_command cmd description).
Proof.
  intros st st' r E.
  destruct (run_command_cases cmd description st st' r E) as [L [->|[b ->]]].
  - split; [|reflexivity]. exists [cmd], []. now split.
  - split; [|intros _; exact L]. exists [cmd], []. now split.
Qed.

Lemma follows_run_each {X} (cmd : X -> list str) (description : X -> str)
    (xs : list X) :
  follows (map cmd xs) (fun ok : bool => ok) only_interrupt
    (run_each cmd description xs).
Proof.
  induction xs as [|x xs IH]; simpl.
  - apply follows_ret.
  - apply (follows_bind [cmd x] (map cmd xs) (fun ok : bool => ok)
             (fun ok : bool => ok) only_interrupt).
    + eapply follows_weaken; [| |apply follows_run_command]; auto.
    + intros a ->. exact IH.
    + intros a ->. now apply stops_ret.
Qed.

Lemma follows_setup_project project :
  follows (setup_cmds project) (fun ok : bool => ok) only_interrupt
    (setup_project project).
Proof.
  unfold Setup.setup_project, setup_cmds.
  apply follows_nil_bind; [apply follows_print|]. intros _.
  apply (follows_bind [set_project_cmd project] (map enable_cmd apis)
           (fun ok : bool => ok) (fun ok : bool => ok) only_interrupt).
  - eapply follows_weaken; [| |apply follows_run_command]; auto.
  - intros a ->. apply follows_run_each.
  - intros a ->. now apply stops_ret.
Qed.

Lemma follows_grant_permissions project :
  follows (grant_cmds project) (fun ok : bool => ok) only_interrupt
    (grant_permissions project).
Proof.
  unfold Setup.grant_permissions, grant_cmds.
  apply follows_nil_bind; [apply follows_print|]. intros _.
  apply follows_run_each.
Qed.

Lemma follows_create_service_account project :
  follows [create_account_cmd] (fun _ => true) only_interrupt
    (create_service_account project).
Proof.
  unfold Setup.create_service_account.
  apply follows_nil_bind; [apply follows_print|]. intros _.
  apply follows_run_command.
Qed.

Lemma follows_create_service_account_key project key :
  follows [create_key_cmd project key] (fun ok : bool => ok) only_interrupt
    (create_service_account_key project key).
Proof.
  unfold Setup.create_service_account_key.
  apply follows_nil_bind; [apply follows_print|]. intros _.
  eapply follows_weaken; [| |apply follows_run_command]; auto.
Qed.

Ltac trace_done :=
  cbn [Setup.env Setup.trace]; rewrite ?commands_app; cbn [commands app];
  rewrite ?app_nil_r, <- ?app_assoc; cbn [app]; try reflexivity.

Lemma follows_validate_gcloud_auth :
  follows [gcloud_version; gcloud_auth_list] (fun ok : bool => ok)
    launch_errors validate_gcloud_auth.
Proof.
  intros st st' r.
  unfold Setup.validate_gcloud_auth, Setup.try_except_missing, Setup.bind,
    Setup.print, Setup.subprocess_run, Setup.ret, Setup.launched.
  cbn [Setup.env Setup.trace].
  destruct (spawn (env st) gcloud_version) as [w1 [cp1|[msg|msg|]]];
    cbn [andb].
  - destruct (returncode cp1 =? 0)%Z; cbn [negb Setup.env Setup.trace].
    + destruct (spawn w1 gcloud_auth_list) as [w2 [cp2|[msg|msg|]]];
        cbn [andb Setup.env Setup.trace].
      * destruct (is_empty (strip (stdout cp2)));
          intros E; injection E as <- <-; (split; [|try discriminate]).
        -- exists [gcloud_version; gcloud_auth_list], []. split; trace_done.
        -- exists [gcloud_version; gcloud_auth_list], []. split; trace_done.
        -- intros _. trace_done.
      * intros E; injection E as <- <-. split; [|reflexivity].
        exists [gcloud_version; gcloud_auth_list], []. split; trace_done.
      * intros E; injection E as <- <-. split; [|reflexivity].
        exists [gcloud_version; gcloud_auth_list], []. split; trace_done.
      * intros E; injection E as <- <-. split; [|reflexivity].
        exists [gcloud_version; gcloud_auth_list], []. split; trace_done.
    + intros E; injection E as <- <-. split; [|discriminate].
      exists [gcloud_version], [gcloud_auth_list]. split; trace_done.
  - intros E; injection E as <- <-. split; [|discriminate].
    exists [gcloud_version], [gcloud_auth_list]. split; trace_done.
  - intros E; injection E as <- <-. split; [|reflexivity].
    exists [gcloud_version], [gcloud_auth_list]. split; trace_done.
  - intros E; injection E as <- <-. split; [|reflexivity].
    exists [gcloud_version], [gcloud_auth_list]. split; trace_done.
Qed.

Lemma stops_failed_exit text :
  stops (fun _ : unit => true) exit_1_or_launch_error
    (bind (print text) (fun _ => sys_exit 1) : M unit).
Proof. apply stops_print_exit. Qed.

Lemma only_interrupt_allowed e :
  only_interrupt e = true -> exit_1_or_launch_error e = true.
Proof. destruct e; simpl; auto; discriminate. Qed.

Lemma launch_errors_allowed e :
  launch_errors e = true -> exit_1_or_launch_error e = true.
Proof. destruct e; simpl; auto; discriminate. Qed.

(** [if not ok: print(text); sys.exit(1)] after a step that returns [ok]. *)
Lemma follows_or_exit cmds (m : M bool) text :
  follows cmds (fun ok : bool => ok) only_interrupt m ->
  follows cmds (fun _ : unit => true) exit_1_or_launch_error
    (bind m (fun ok =>
       if negb ok then bind (print text) (fun _ => sys_exit 1)
       else ret tt)).
Proof.
  intros H. rewrite <- (app_nil_r cmds).
  apply (follows_bind cmds [] (fun ok : bool => ok) (fun _ => true)
           exit_1_or_launch_error).
  - eapply follows_weaken; [| |exact H]; auto using only_interrupt_allowed.
  - intros a ->. apply follows_ret.
  - intros a ->. apply stops_failed_exit.
Qed.

Lemma follows_bind_assoc {A B C} cmds (g : C -> bool) al
    (m : M A) (f : A -> M B) (k : B -> M C) :
  follows cmds g al (bind (bind m f) k) ->
  follows cmds g al (bind m (fun a => bind (f a) k)).
Proof.
  intros H st st' r E. apply H. rewrite <- E. unfold Setup.bind.
  destruct (m st) as [st1 [a|e]]; reflexivity.
Qed.

Lemma follows_main args :
  follows (plan Path args) (fun _ => true) exit_1_or_launch_error (main args).
Proof.
  unfold Setup.main, plan.
  do 3 (apply follows_nil_bind; [apply follows_print|]; intros _).
  apply (follows_bind [gcloud_version; gcloud_auth_list] _
           (fun ok : bool => ok) (fun _ => true) exit_1_or_launch_error).
  { eapply follows_weaken; [| |apply follows_validate_gcloud_auth];
      auto using launch_errors_allowed. }
  2:{ intros a ->. cbn [negb]. intros st st' r E.
      unfold Setup.bind, Setup.sys_exit, Setup.raise in E.
      injection E as <- <-. now split. }
  intros a ->. cbn [negb].
  apply follows_nil_bind; [apply follows_ret|]. intros _.
  apply (follows_bind _ _ (fun _ : unit => true) (fun _ => true)
           exit_1_or_launch_error); [| |discriminate].
  { destruct (skip_project_setup args); cbn [negb].
    - apply follows_ret.
    - apply follows_or_exit, follows_setup_project. }
  intros _ _.
  apply (follows_bind [create_account_cmd] _
           (fun _ : bool => true) (fun _ => true) exit_1_or_launch_error);
    [| |discriminate].
  { eapply follows_weaken; [| |apply follows_create_service_account];
      auto using only_interrupt_allowed. }
  intros ok _.
  apply follows_nil_bind.
  { destruct ok; cbn [negb]; [apply follows_ret | apply follows_print]. }
  intros _.
  (* the two steps that end the run when they fail *)
  apply follows_bind_assoc.
  apply (follows_bind (grant_cmds (project_id args)) _
           (fun _ : unit => true) (fun _ => true) exit_1_or_launch_error);
    [| |discriminate].
  { apply follows_or_exit, follows_grant_permissions. }
  intros _ _.
  apply follows_bind_assoc.
  rewrite <- (app_nil_r [create_key_cmd _ _]).
  apply (follows_bind [create_key_cmd _ _] []
           (fun _ : unit => true) (fun _ => true) exit_1_or_launch_error);
    [| |discriminate].
  { apply follows_or_exit, follows_create_service_account_key. }
  intros _ _.
  do 5 (apply follows_nil_bind; [apply follows_print|]; intros _).
  apply follows_print.
Qed.

(** *** Runs that go through *)

Definition succeeds {A} (m : M A) (a : A) : Prop :=
  forall st : state, exists st', m st = (st', Done a).

Definition finishes {A} (m : M A) : Prop :=
  forall st : state, exists st' a, m st = (st', Done a).

Lemma succeeds_bind {A B} (m : M A) (k : A -> M B) a b :
  succeeds m a -> succeeds (k a) b -> succeeds (bind m k) b.
Proof.
  intros H1 H2 st. destruct (H1 st) as [st1 E1].
  destruct (H2 st1) as [st2 E2]. exists st2.
  unfold Setup.bind. now rewrite E1.
Qed.

Lemma finishes_bind {A B} (m : M A) (k : A -> M B) b :
  finishes m -> (forall a, succeeds (k a) b) -> succeeds (bind m k) b.
Proof.
  intros H1 H2 st. destruct (H1 st) as (st1 & a & E1).
  destruct (H2 a st1) as [st2 E2]. exists st2.
  unfold Setup.bind. now rewrite E1.
Qed.

Lemma succeeds_ret {A} (a : A) : succeeds (ret a) a.
Proof. intros st. now exists st. Qed.

Lemma succeeds_print text : succeeds (print text) tt.
Proof. intros st. eexists. reflexivity. Qed.

Section GoodMachine.

(** Every command other than the creation of the service account exits
    with status 0, the account listing names an account, and the creation
    of the service account is not interrupted. *)
Hypothesis exits_0 :
  forall w cmd, cmd <> create_account_cmd ->
    exists w' completed,
      spawn w cmd = (w', inl completed) /\ returncode completed = 0%Z.
Hypothesis account_listed :
  forall w w' completed,
    spawn w gcloud_auth_list = (w', inl completed) ->
    is_empty (strip (stdout completed)) = false.
Hypothesis create_not_interrupted :
  forall w, snd (spawn w create_account_cmd) <> inr Interrupted.

Lemma succeeds_run_command cmd description :
  cmd <> create_account_cmd -> succeeds (run_command cmd description) true.
Proof.
  intros Hne st.
  destruct (run_command_spec cmd description st) as (st' & E & _).
  destruct (exits_0 (env st) cmd Hne) as (w' & cp & Es & Hrc).
  rewrite Es in E. simpl in E. rewrite Hrc in E. now exists st'.
Qed.

Lemma succeeds_run_each {X} (cmd : X -> list str) (description : X -> str)
    (xs : list X) :
  (forall x, In x xs -> cmd x <> create_account_cmd) ->
  succeeds (run_each cmd description xs) true.
Proof.
  induction xs as [|x xs IH]; intros Hne; simpl.
  - apply succeeds_ret.
  - eapply succeeds_bind.
    + apply succeeds_run_command, Hne. now left.
    + simpl. apply IH. intros y Hy. apply Hne. now right.
Qed.

Lemma succeeds_validate_gcloud_auth : succeeds validate_gcloud_auth true.
Proof.
  intros st.
  unfold Setup.validate_gcloud_auth, Setup.try_except_missing, Setup.bind,
    Setup.print, Setup.subprocess_run, Setup.ret.
  cbn [Setup.env Setup.trace].
  destruct (exits_0 (env st) gcloud_version) as (w1 & cp1 & E1 & R1);
    [intros H; cbv in H; discriminate H|].
  rewrite E1, R1. cbn [Z.eqb negb andb Setup.env Setup.trace].
  destruct (exits_0 w1 gcloud_auth_list) as (w2 & cp2 & E2 & R2);
    [intros H; cbv in H; discriminate H|].
  rewrite E2. cbn [andb Setup.env Setup.trace].
  rewrite (account_listed _ _ _ E2). eexists. reflexivity.
Qed.

Lemma finishes_create_service_account project :
  finishes (create_service_account project).
Proof.
  intros st. unfold Setup.create_service_account, Setup.bind, Setup.print.
  match goal with
  | |- context [Setup.run_command _ _ _ ?c ?d ?s] =>
      destruct (run_command_spec c d s) as (st' & E & _)
  end.
  rewrite E. cbn [Setup.env].
  pose proof (create_not_interrupted (env st)) as Hni.
  destruct (snd (spawn (env st) create_account_cmd)) as [cp|[msg|msg|]];
    simpl; eauto. contradiction.
Qed.

Lemma succeeds_main args : succeeds (main args) tt.
Proof.
  unfold Setup.main.
  do 3 (eapply succeeds_bind; [apply succeeds_print|]).
  eapply succeeds_bind; [apply succeeds_validate_gcloud_auth|]. cbn [negb].
  eapply succeeds_bind; [apply succeeds_ret|].
  eapply succeeds_bind.
  { destruct (skip_project_setup args); cbn [negb]; [apply succeeds_ret|].
    eapply succeeds_bind.
    - unfold Setup.setup_project.
      eapply succeeds_bind; [apply succeeds_print|].
      eapply succeeds_bind.
      + apply succeeds_run_command. intros H; cbv in H; discriminate H.
      + cbn [negb]. apply succeeds_run_each.
        intros x _ H; cbv in H; discriminate H.
    - cbn [negb]. apply succeeds_ret. }
  apply finishes_bind; [apply finishes_create_service_account|]. intros ok.
  eapply succeeds_bind.
  { destruct ok; cbn [negb]; [apply succeeds_ret | apply succeeds_print]. }
  eapply succeeds_bind.
  { unfold Setup.grant_permissions.
    eapply succeeds_bind; [apply succeeds_print|].
    apply succeeds_run_each. intros x _ H; cbv in H; discriminate H. }
  cbn [negb]. eapply succeeds_bind; [apply succeeds_ret|].
  eapply succeeds_bind.
  { unfold Setup.create_service_account_key.
    eapply succeeds_bind; [apply succeeds_print|].
    apply succeeds_run_command. intros H; cbv in H; discriminate H. }
  cbn [negb]. eapply succeeds_bind; [apply succeeds_ret|].
  do 5 (eapply succeeds_bind; [apply succeeds_print|]).
  apply succeeds_print.
Qed.

End GoodMachine.

(** *** The functions of the script *)

(** [run_command] launches the command once.  It returns [True] exactly
    when the process completes with exit status 0, [False] when it
    completes with another status or when launching raises an [Exception];
    only a [KeyboardInterrupt] leaves it. *)
Theorem run_command_reports_exit_status cmd description (st : state) :
  exists st',
    run_command cmd description st
    = (st', match snd (spawn (env st) cmd) with
            | inl completed => Done (returncode completed =? 0)%Z
            | inr Interrupted => Raised KeyboardInterrupt
            | inr (NotFound _) | inr (Failure _) => Done false
            end)
    /\ env st' = fst (spawn (env st) cmd)
    /\ launched st' = launched st ++ [cmd].
Proof. apply run_command_spec. Qed.

(** [setup_project] launches [gcloud config set project] and then the
    three [gcloud services enable] commands, in that order, stopping at the
    first one that fails; it returns [True] only after all four, and raises
    nothing but a [KeyboardInterrupt]. *)
Theorem setup_project_launches project (st st' : state) r :
  setup_project project st = (st', r) ->
  (exists ran rest,
      setup_cmds project = ran ++ rest /\ launched st' = launched st ++ ran)
  /\ (r = Done true -> launched st' = launched st ++ setup_cmds project)
  /\ (forall e, r = Raised e -> e = KeyboardInterrupt).
Proof.
  intros E. destruct (follows_setup_project project st st' r E) as [Hp Hr].
  split; [exact Hp|]. split.
  - intros ->. now apply Hr.
  - intros e ->. destruct e; simpl in Hr; congruence.
Qed.

(** When setting the project fails, no API is enabled: [setup_project]
    returns [False] after that single launch. *)
Theorem setup_project_stops_at_set_project project (st : state) :
  run_command_result (snd (spawn (env st) (set_project_cmd project)))
  = Done false ->
  exists st',
    setup_project project st = (st', Done false)
    /\ launched st' = launched st ++ [set_project_cmd project].
Proof.
  intros H. unfold Setup.setup_project, Setup.bind, Setup.print.
  match goal with
  | |- context [Setup.run_command _ _ _ ?c ?d ?s] =>
      destruct (run_command_spec c d s) as (st' & E & _ & L)
  end.
  cbn [Setup.env] in E. rewrite H in E. rewrite E. cbn [negb].
  exists st'. split; [reflexivity|]. rewrite L.
  unfold Setup.launched. cbn [Setup.trace]. rewrite commands_app.
  cbn [commands]. now rewrite app_nil_r.
Qed.



(** *** [main] *)

(** Whatever the machine answers, the commands [main] launches are an
    initial segment of the plan: the two checks, the project setup unless
    skipped, the service account, the three role bindings, the key. *)
Theorem main_launches_initial_segment_of_plan args (st st' : state) r :
  main args st = (st', r) ->
  exists ran rest,
    plan Path args = ran ++ rest /\ launched st' = launched st ++ ran.
Proof. intros E. exact (proj1 (follows_main args st st' r E)). Qed.

(** When [main] returns, every command of the plan was launched, in
    order. *)
Theorem main_returns_after_whole_plan args (st st' : state) :
  main args st = (st', Done tt) ->
  launched st' = launched st ++ plan Path args.
Proof. intros E. exact (proj2 (follows_main args st st' (Done tt) E) eq_refl). Qed.


Lemma in_plan_gcloud args cmd :
  In cmd (plan Path args) -> hd [] cmd = lit "gcloud".
Proof.
  unfold plan, setup_cmds, grant_cmds.
  destruct (skip_project_setup args); simpl; intros H;
    repeat (destruct H as [<-|H]; [reflexivity|]); contradiction.
Qed.

(** [main] launches nothing but [gcloud]. *)
Theorem main_launches_only_gcloud args (st st' : state) r ran :
  main args st = (st', r) ->
  launched st' = launched st ++ ran ->
  forall cmd, In cmd ran -> hd [] cmd = lit "gcloud".
Proof.
  intros E L cmd Hin.
  destruct (proj1 (follows_main args st st' r E)) as (ran' & rest & Hplan & L').
  rewrite L in L'. apply app_inv_head in L'. subst ran'.
  apply (in_plan_gcloud args). rewrite Hplan. apply in_or_app. now left.
Qed.

(** With [--skip-project-setup], [main] neither sets the project nor
    enables an API. *)
Theorem main_skip_project_setup args (st st' : state) r ran :
  skip_project_setup args = true ->
  main args st = (st', r) ->
  launched st' = launched st ++ ran ->
  forall cmd, In cmd ran -> ~ In cmd (setup_cmds (project_id args)).
Proof.
  intros Hskip E L cmd Hin Hsetup.
  destruct (proj1 (follows_main args st st' r E)) as (ran' & rest & Hplan & L').
  rewrite L in L'. apply app_inv_head in L'. subst ran'.
  assert (Hp : In cmd (plan Path args)).
  { rewrite Hplan. apply in_or_app. now left. }
  unfold plan, setup_cmds, grant_cmds in *. rewrite Hskip in Hp.
  simpl in Hp, Hsetup.
  repeat (destruct Hp as [<-|Hp];
          [repeat (destruct Hsetup as [Hs|Hsetup];
                   [cbv in Hs; discriminate Hs|]); contradiction|]).
  contradiction.
Qed.

Lemma key_cmd_not_earlier args :
  ~ In (create_key_cmd (project_id args) (Path (key_path args)))
       ([gcloud_version; gcloud_auth_list]
        ++ (if skip_project_setup args then []
            else setup_cmds (project_id args))
        ++ [create_account_cmd] ++ grant_cmds (project_id args)).
Proof.
  unfold setup_cmds, grant_cmds.
  destruct (skip_project_setup args); simpl; intros H;
    repeat (destruct H as [H|H]; [cbv in H; discriminate H|]); contradiction.
Qed.

(** The key is requested last: once the command that creates the key has
    been launched, all the commands before it in the plan have been, the
    three role bindings among them. *)
Theorem main_requests_key_last args (st st' : state) r ran :
  main args st = (st', r) ->
  launched st' = launched st ++ ran ->
  In (create_key_cmd (project_id args) (Path (key_path args))) ran ->
  ran = plan Path args.
Proof.
  intros E L Hin.
  destruct (proj1 (follows_main args st st' r E)) as (ran' & rest & Hplan & L').
  rewrite L in L'. apply app_inv_head in L'. subst ran'.
  destruct rest as [|x rest]; [now rewrite app_nil_r in Hplan|].
  exfalso. destruct (@exists_last _ (x :: rest)) as (rest' & z & Hz);
    [discriminate|].
  rewrite Hz in Hplan. unfold plan in Hplan.
  rewrite !app_assoc in Hplan. apply app_inj_tail in Hplan as [Hpre _].
  apply (key_cmd_not_earlier args).
  rewrite !app_assoc, Hpre. apply in_or_app. now left.
Qed.

(** Without a working [gcloud] ([gcloud --version] cannot be launched, or
    exits with a status other than 0), [main] prints that the CLI was not
    found and exits with status 1 after that single launch. *)
Theorem main_stops_without_gcloud args (st : state) :
  (match snd (spawn (env st) gcloud_version) with
   | inl completed => returncode completed <> 0%Z
   | inr (NotFound _) => True
   | inr (Failure _) | inr Interrupted => False
   end) ->
  exists st',
    main args st = (st', Raised (SystemExit 1))
    /\ launched st' = launched st ++ [gcloud_version]
    /\ env st' = fst (spawn (env st) gcloud_version)
    /\ last (console (trace st')) []
       = cross_mark ++ lit " gcloud CLI not found. Please install it first.".
Proof.
  intros H.
  unfold Setup.main, Setup.validate_gcloud_auth, Setup.try_except_missing,
    Setup.bind, Setup.print, Setup.subprocess_run, Setup.ret,
    Setup.sys_exit, Setup.raise, Setup.launched.
  cbn [Setup.env Setup.trace].
  destruct (spawn (env st) gcloud_version) as [w1 [cp1|[msg|msg|]]];
    cbn [snd fst andb] in *; try contradiction.
  - apply Z.eqb_neq in H. rewrite H. cbn [negb Setup.env Setup.trace].
    eexists. split; [reflexivity|]. cbn [Setup.env Setup.trace].
    split; [trace_done|]. split; [reflexivity|].
    rewrite console_app. cbn [console]. apply last_last.
  - cbn [negb Setup.env Setup.trace].
    eexists. split; [reflexivity|]. cbn [Setup.env Setup.trace].
    split; [trace_done|]. split; [reflexivity|].
    rewrite console_app. cbn [console]. apply last_last.
Qed.

(** With [gcloud] installed but no active account (the account listing
    prints nothing but whitespace), [main] exits with status 1 after the
    two checks; nothing is set up. *)
Theorem main_stops_when_not_authenticated args (st : state)
    w1 version w2 listing :
  spawn (env st) gcloud_version = (w1, inl version) ->
  returncode version = 0%Z ->
  spawn w1 gcloud_auth_list = (w2, inl listing) ->
  forallb Py_UNICODE_ISSPACE (stdout listing) = true ->
  exists st',
    main args st = (st', Raised (SystemExit 1))
    /\ launched st' = launched st ++ [gcloud_version; gcloud_auth_list]
    /\ env st' = w2
    /\ last (console (trace st')) [] = lit "Run: gcloud auth login".
Proof.
  intros E1 R1 E2 Hblank.
  unfold Setup.main, Setup.validate_gcloud_auth, Setup.try_except_missing,
    Setup.bind, Setup.print, Setup.subprocess_run, Setup.ret,
    Setup.sys_exit, Setup.raise, Setup.launched.
  cbn [Setup.env Setup.trace]. rewrite E1, R1.
  cbn [Z.eqb negb andb Setup.env Setup.trace]. rewrite E2.
  cbn [andb Setup.env Setup.trace].
  rewrite is_empty_strip, Hblank. cbn [negb Setup.env Setup.trace].
  eexists. split; [reflexivity|]. cbn [Setup.env Setup.trace].
  split; [trace_done|]. split; [reflexivity|].
  rewrite console_app. cbn [console]. apply last_last.
Qed.

End Facts.

Arguments launched {world} st.
Arguments env {world} s.
Arguments trace {world} s.

(** On a machine where every command other than the creation of the
    service account exits with status 0 and the account listing names an
    account, [main] returns, having launched the whole plan: a failure to
    create the service account (it may exist already) does not end the
    run. *)
Theorem main_completes world spawn called_process_text Path args
    (st : Setup.state world) :
  (forall w cmd, cmd <> create_account_cmd ->
     exists w' completed,
       spawn w cmd = (w', inl completed) /\ returncode completed = 0%Z) ->
  (forall w w' completed,
     spawn w gcloud_auth_list = (w', inl completed) ->
     is_empty (strip (stdout completed)) = false) ->
  (forall w, snd (spawn w create_account_cmd) <> inr Interrupted) ->
  exists st',
    Setup.main world spawn called_process_text Path args st = (st', Done tt)
    /\ launched st' = launched st ++ plan Path args.
Proof.
  intros H1 H2 H3.
  destruct (succeeds_main world spawn called_process_text Path H1 H2 H3
              args st) as [st' E].
  exists st'. split; [exact E|].
  exact (proj2 (follows_main world spawn called_process_text Path args
                  st st' (Done tt) E) eq_refl).
Qed.

(** *** Sample machines *)

Fixpoint cmd_eqb (a b : list str) : bool :=
  match a, b with
  | [], [] => true
  | x :: a', y :: b' => str_eqb x y && cmd_eqb a' b'
  | _, _ => false
  end.

Lemma cmd_eqb_eq a b : cmd_eqb a b = true -> a = b.
Proof.
  revert b. induction a as [|x a IH]; intros [|y b]; simpl;
    try discriminate; [reflexivity|].
  intros H. apply andb_prop in H as [Hx Hr].
  apply str_eqb_eq in Hx. now rewrite Hx, (IH b Hr).
Qed.

Definition succeeded : CompletedProcess :=
  {| returncode := 0; stdout := lit "dev@example.com" ++ nl; stderr := [] |}.

Definition failed (why : string) : CompletedProcess :=
  {| returncode := 1; stdout := []; stderr := lit why ++ nl |}.

(** Everything works, but the service account exists already. *)
Definition account_exists_machine (w : unit) (cmd : list str)
  : unit * (CompletedProcess + launch_failure) :=
  if cmd_eqb cmd create_account_cmd
  then (w, inl (failed "Service account github-actions already exists"))
  else (w, inl succeeded).

(** No [gcloud] on the path. *)
Definition no_gcloud_machine (w : unit) (cmd : list str)
  : unit * (CompletedProcess + launch_failure) :=
  (w, inr (NotFound (lit "[Errno 2] No such file or directory: 'gcloud'"))).

(** [gcloud] works, nobody is logged in, and the project is unknown. *)
Definition logged_out_machine (w : unit) (cmd : list str)
  : unit * (CompletedProcess + launch_failure) :=
  if cmd_eqb cmd gcloud_version then (w, inl succeeded)
  else if cmd_eqb cmd gcloud_auth_list
  then (w, inl {| returncode := 0; stdout := nl; stderr := [] |})
  else (w, inl (failed "not authenticated")).

Definition no_text (code : Z) (cmd : list str) : str := [].

Definition same_path (p : str) : str := p.

Definition fresh : Setup.state unit := {| env := tt; trace := [] |}.

Definition sample_args : Namespace := parse_args (lit "my-project") None false.

Definition sample_args_skipping : Namespace :=
  parse_args (lit "my-project") (Some (lit "sa.json")) true.

Definition run_main spawn (args : Namespace)
  : Setup.state unit * result unit :=
  Setup.main unit spawn no_text same_path args fresh.

Lemma run_main_eq spawn args :
  Setup.main unit spawn no_text same_path args fresh
  = (fst (run_main spawn args), snd (run_main spawn args)).
Proof. apply surjective_pairing. Qed.

Example console_without_gcloud :
  console (trace (fst (run_main no_gcloud_machine sample_args)))
  = [[127919%N] ++ lit " GCP Deployment Setup for GitHub Actions";
     lit "Project ID: my-project";
     lit "Key file: key.json";
     nl ++ [128269%N] ++ lit " Validating gcloud authentication...";
     cross_mark ++ lit " gcloud CLI not found. Please install it first."].
Proof. reflexivity. Qed.

Example commands_of_a_full_run :
  launched (fst (run_main account_exists_machine sample_args))
  = [[lit "gcloud"; lit "--version"];
     [lit "gcloud"; lit "auth"; lit "list"; lit "--filter=status:ACTIVE";
      lit "--format=value(account)"];
     [lit "gcloud"; lit "config"; lit "set"; lit "project"; lit "my-project"];
     [lit "gcloud"; lit "services"; lit "enable";
      lit "cloudfunctions.googleapis.com"];
     [lit "gcloud"; lit "services"; lit "enable";
      lit "cloudbuild.googleapis.com"];
     [lit "gcloud"; lit "services"; lit "enable";
      lit "artifactregistry.googleapis.com"];
     [lit "gcloud"; lit "iam"; lit "service-accounts"; lit "create";
      lit "github-actions"; lit "--display-name"; lit "GitHub Actions"];
     [lit "gcloud"; lit "projects"; lit "add-iam-policy-binding";
      lit "my-project";
      lit "--member=serviceAccount:github-actions@my-project.iam.gserviceaccount.com";
      lit "--role=roles/cloudfunctions.admin"];
     [lit "gcloud"; lit "projects"; lit "add-iam-policy-binding";
      lit "my-project";
      lit "--member=serviceAccount:github-actions@my-project.iam.gserviceaccount.com";
      lit "--role=roles/cloudbuild.builds.editor"];
     [lit "gcloud"; lit "projects"; lit "add-iam-policy-binding";
      lit "my-project";
      lit "--member=serviceAccount:github-actions@my-project.iam.gserviceaccount.com";
      lit "--role=roles/iam.serviceAccountUser"];
     [lit "gcloud"; lit "iam"; lit "service-accounts"; lit "keys";
      lit "create"; lit "key.json";
      lit "--iam-account=github-actions@my-project.iam.gserviceaccount.com"]].
Proof. reflexivity. Qed.

Example console_of_a_failed_command :
  console
    (trace (fst (Setup.run_command unit account_exists_machine no_text
                   create_account_cmd (lit "Creating account") fresh)))
  = [lit "Running: Creating account";
     lit "Command: gcloud iam service-accounts create github-actions --display-name GitHub Actions";
     cross_mark ++ lit " Failed";
     lit "Error: Service account github-actions already exists"].
Proof. reflexivity. Qed.

Lemma setup_project_launches_witness :
  let out := Setup.setup_project unit account_exists_machine no_text
               (lit "my-project") fresh in
  snd out = Done true
  /\ launched (fst out) = setup_cmds (lit "my-project").
Proof.
  intros out. split; [reflexivity|].
  apply (setup_project_launches unit account_exists_machine no_text
           (lit "my-project") fresh (fst out) (snd out));
    [apply surjective_pairing | reflexivity].
Defined.

Lemma setup_project_stops_at_set_project_witness :
  run_command_result
    (snd (logged_out_machine tt (set_project_cmd (lit "my-project"))))
  = Done false
  /\ exists st',
       Setup.setup_project unit logged_out_machine no_text
         (lit "my-project") fresh = (st', Done false)
       /\ launched st' = [set_project_cmd (lit "my-project")].
Proof.
  split; [reflexivity|].
  apply (setup_project_stops_at_set_project unit logged_out_machine no_text
           (lit "my-project") fresh).
  reflexivity.
Defined.



Lemma main_launches_initial_segment_of_plan_witness :
  exists ran rest,
    plan same_path sample_args = ran ++ rest
    /\ launched (fst (run_main logged_out_machine sample_args)) = ran.
Proof.
  apply (main_launches_initial_segment_of_plan unit logged_out_machine
           no_text same_path sample_args fresh
           (fst (run_main logged_out_machine sample_args))
           (snd (run_main logged_out_machine sample_args))).
  apply run_main_eq.
Defined.

Lemma main_returns_after_whole_plan_witness :
  snd (run_main account_exists_machine sample_args) = Done tt
  /\ launched (fst (run_main account_exists_machine sample_args))
     = plan same_path sample_args.
Proof.
  split; [reflexivity|].
  apply (main_returns_after_whole_plan unit account_exists_machine
           no_text same_path sample_args fresh
           (fst (run_main account_exists_machine sample_args))).
  rewrite run_main_eq. reflexivity.
Defined.


Lemma main_launches_only_gcloud_witness :
  In create_account_cmd
     (launched (fst (run_main account_exists_machine sample_args)))
  /\ hd [] create_account_cmd = lit "gcloud".
Proof.
  assert (Hin : In create_account_cmd
                  (launched (fst (run_main account_exists_machine
                                    sample_args)))).
  { vm_compute. tauto. }
  split; [exact Hin|].
  apply (main_launches_only_gcloud unit account_exists_machine no_text
           same_path sample_args fresh
           (fst (run_main account_exists_machine sample_args))
           (snd (run_main account_exists_machine sample_args))
           (launched (fst (run_main account_exists_machine sample_args))));
    [apply run_main_eq | reflexivity | exact Hin].
Defined.

Lemma main_skip_project_setup_witness :
  skip_project_setup sample_args_skipping = true
  /\ In create_account_cmd
        (launched (fst (run_main account_exists_machine
                          sample_args_skipping)))
  /\ ~ In create_account_cmd
          (setup_cmds (project_id sample_args_skipping)).
Proof.
  assert (Hin : In create_account_cmd
                  (launched (fst (run_main account_exists_machine
                                    sample_args_skipping)))).
  { vm_compute. tauto. }
  split; [reflexivity|]. split; [exact Hin|].
  apply (main_skip_project_setup unit account_exists_machine no_text
           same_path sample_args_skipping fresh
           (fst (run_main account_exists_machine sample_args_skipping))
           (snd (run_main account_exists_machine sample_args_skipping))
           (launched (fst (run_main account_exists_machine
                             sample_args_skipping))));
    [reflexivity | apply run_main_eq | reflexivity | exact Hin].
Defined.

Lemma main_requests_key_last_witness :
  In (create_key_cmd (lit "my-project") (lit "key.json"))
     (launched (fst (run_main account_exists_machine sample_args)))
  /\ launched (fst (run_main account_exists_machine sample_args))
     = plan same_path sample_args.
Proof.
  assert (Hin : In (create_key_cmd (lit "my-project") (lit "key.json"))
                  (launched (fst (run_main account_exists_machine
                                    sample_args)))).
  { vm_compute. tauto. }
  split; [exact Hin|].
  apply (main_requests_key_last unit account_exists_machine no_text
           same_path sample_args fresh
           (fst (run_main account_exists_machine sample_args))
           (snd (run_main account_exists_machine sample_args)));
    [apply run_main_eq | reflexivity | exact Hin].
Defined.

Lemma main_stops_without_gcloud_witness :
  exists st',
    Setup.main unit no_gcloud_machine no_text same_path sample_args fresh
    = (st', Raised (SystemExit 1))
    /\ launched st' = [gcloud_version]
    /\ env st' = tt
    /\ last (console (trace st')) []
       = cross_mark ++ lit " gcloud CLI not found. Please install it first.".
Proof.
  apply (main_stops_without_gcloud unit no_gcloud_machine no_text same_path
           sample_args fresh).
  exact I.
Defined.

Lemma main_stops_when_not_authenticated_witness :
  exists st',
    Setup.main unit logged_out_machine no_text same_path sample_args fresh
    = (st', Raised (SystemExit 1))
    /\ launched st' = [gcloud_version; gcloud_auth_list]
    /\ env st' = tt
    /\ last (console (trace st')) [] = lit "Run: gcloud auth login".
Proof.
  apply (main_stops_when_not_authenticated unit logged_out_machine no_text
           same_path sample_args fresh tt succeeded tt
           {| returncode := 0; stdout := nl; stderr := [] |});
    reflexivity.
Defined.

Lemma main_completes_witness :
  exists st',
    Setup.main unit account_exists_machine no_text same_path sample_args
      fresh = (st', Done tt)
    /\ launched st' = plan same_path sample_args.
Proof.
  apply (main_completes unit account_exists_machine no_text same_path
           sample_args fresh).
  - intros w cmd Hne. exists w, succeeded. split; [|reflexivity].
    unfold account_exists_machine.
    destruct (cmd_eqb cmd create_account_cmd) eqn:E; [|reflexivity].
    apply cmd_eqb_eq in E. contradiction.
  - intros w w' completed H. vm_compute in H. injection H as _ <-.
    reflexivity.
  - intros w. vm_compute. discriminate.
Defined.

End SetupFacts.

(** ** More on the word count *)

Lemma split_nil_iff s :
  split s = [] <-> forallb Py_UNICODE_ISSPACE s = true.
Proof.
  split; [|apply split_all_space].
  induction s as [|c r IH]; [reflexivity|].
  rewrite split_cons. simpl.
  destruct (Py_UNICODE_ISSPACE c); [exact IH | discriminate].
Qed.

Lemma skip_app_nonnil p a b :
  skip p a <> [] -> skip p (a ++ b) = skip p a ++ b.
Proof.
  induction a as [|x a IH]; simpl; [congruence|].
  destruct (p x); [exact IH | reflexivity].
Qed.

Lemma span_app_nonnil p a b :
  skip p a <> [] -> span p (a ++ b) = span p a.
Proof.
  induction a as [|x a IH]; simpl; [congruence|].
  destruct (p x); [|reflexivity]. intros H. now rewrite IH.
Qed.

Lemma length_split_bound s : 2 * length (split s) <= length s + 1.
Proof.
  remember (length s) as n eqn:En. revert s En.
  induction n as [n IH] using lt_wf_ind. intros s En.
  destruct s as [|c r]; [simp split; simpl; lia|].
  rewrite split_cons. simpl in En.
  destruct (Py_UNICODE_ISSPACE c).
  - specialize (IH (length r) ltac:(lia) r eq_refl). lia.
  - simpl. pose proof (length_skip nonspace r) as L.
    destruct (skip nonspace r) as [|c' r'] eqn:E.
    + simp split. simpl. lia.
    + rewrite split_cons.
      rewrite (isspace_of_nonspace_false c' (skip_head _ _ _ _ E)).
      simpl in L.
      specialize (IH (length r') ltac:(lia) r' eq_refl). lia.
Qed.

(** Dropping the characters up to the first whitespace removes at most
    one item. *)
Lemma length_split_skip_nonspace b :
  length (split (skip nonspace b)) <= length (split b)
  /\ length (split b) <= length (split (skip nonspace b)) + 1.
Proof.
  destruct b as [|x b]; [simpl; lia|].
  simpl skip. unfold nonspace at 1 3.
  destruct (Py_UNICODE_ISSPACE x) eqn:E; cbn [negb].
  - lia.
  - rewrite (split_cons x b), E. simpl. lia.
Qed.

Lemma length_split_app a b :
  length (split (a ++ b)) <= length (split a) + length (split b)
  /\ length (split a) + length (split b) <= length (split (a ++ b)) + 1.
Proof.
  remember (length a) as n eqn:En. revert a En.
  induction n as [n IH] using lt_wf_ind. intros a En.
  destruct a as [|c a]; [simpl; simp split; simpl; lia|].
  simpl. rewrite !split_cons. simpl in En.
  destruct (Py_UNICODE_ISSPACE c).
  - apply (IH (length a)); [lia | reflexivity].
  - simpl. pose proof (length_skip nonspace a) as L.
    destruct (skip nonspace a) as [|c' r'] eqn:E.
    + assert (Hall : forallb nonspace a = true) by now apply skip_nil_iff.
      rewrite (skip_all nonspace a b Hall). simp split. simpl.
      pose proof (length_split_skip_nonspace b). lia.
    + rewrite skip_app_nonnil by (rewrite E; discriminate). rewrite E.
      specialize (IH (length (c' :: r')) ltac:(simpl in *; lia)
                     (c' :: r') eq_refl).
      lia.
Qed.

(** The word count is 0 exactly for the texts made of whitespace only,
    the empty text among them. *)
Theorem word_count_zero_iff_blank (d : TextDocument) :
  get_word_count d = 0%Z <-> forallb Py_UNICODE_ISSPACE (text d) = true.
Proof.
  rewrite get_word_count_len_split, <- split_nil_iff. unfold len.
  destruct (split (text d)); simpl; split; intros H;
    try reflexivity; try discriminate; lia.
Qed.

(** Words are separated by at least one character: a text of [n]
    characters has at most [(n + 1) / 2] words. *)
Theorem word_count_at_most_half_length (d : TextDocument) :
  (0 <= get_word_count d)%Z
  /\ (2 * get_word_count d <= len (text d) + 1)%Z.
Proof.
  rewrite get_word_count_len_split. unfold len.
  pose proof (length_split_bound (text d)). lia.
Qed.

(** Joining two texts with nothing in between merges at most one pair of
    words: the count of the whole is the sum of the counts, or one less. *)
Theorem word_count_of_concatenation (a b : str) :
  (get_word_count {| text := a ++ b |}
   <= get_word_count {| text := a |} + get_word_count {| text := b |})%Z
  /\ (get_word_count {| text := a |} + get_word_count {| text := b |}
      <= get_word_count {| text := a ++ b |} + 1)%Z.
Proof.
  rewrite !get_word_count_len_split. unfold len. simpl.
  pose proof (length_split_app a b). lia.
Qed.

(** Trimming a text first does not change its word count. *)
Theorem word_count_of_trimmed (t : str) :
  get_word_count {| text := strip t |} = get_word_count {| text := t |}.
Proof.
  rewrite !get_word_count_len_split. simpl. now rewrite split_strip.
Qed.

(** ** More on the endpoints *)









(** ** More on the serverless adapter *)

Module AdapterProps.

Import ApiFunction AdapterFacts.

Definition is_qmark (c : N) : bool := existsb (N.eqb c) (lit "?").

Lemma is_qmark_eqb c : is_qmark c = N.eqb c 63.
Proof. unfold is_qmark. simpl. apply orb_false_r. Qed.

Lemma all_qmarks w :
  forallb is_qmark w = true -> w = repeat 63%N (length w).
Proof.
  induction w as [|c w IH]; simpl; [reflexivity|].
  intros H. apply andb_prop in H as [Hc Hw].
  rewrite is_qmark_eqb in Hc. apply N.eqb_eq in Hc.
  now rewrite Hc, <- (IH Hw).
Qed.

(** The url that is dispatched is the full path without the question marks
    at its end, and so never ends with one. *)
Theorem url_is_full_path_without_trailing_question_marks
    (request : PlatformRequest) :
  ends_with_qmark (url_of request) = false
  /\ exists n, full_path request = url_of request ++ repeat 63%N n.
Proof.
  unfold url_of, Py.rstrip. fold is_qmark. split.
  - unfold ends_with_qmark, rstrip_with. rewrite rev_involutive.
    destruct (skip is_qmark (rev (full_path request))) as [|c t] eqn:E;
      [reflexivity|].
    apply skip_head in E. now rewrite <- is_qmark_eqb.
  - exists (length (rev (span is_qmark (rev (full_path request))))).
    rewrite <- all_qmarks.
    + apply rstrip_with_split.
    + rewrite forallb_rev. apply forallb_span.
Qed.

(** The entry point never raises an [Exception]: it returns a reply, or
    lets through what [except Exception] does not catch. *)
Theorem api_function_raises_no_exception
    (client_request :
       str -> str -> headers_dict -> option bytes -> outcome Response)
    (request : PlatformRequest) :
  match api_function client_request request with
  | Ok _ => True
  | Raised (SystemExiting what) =>
      dispatch client_request request = Raised (SystemExiting what)
  | Raised (Exception _) => False
  end.
Proof.
  unfold api_function, try_block.
  destruct (dispatch client_request request) as [response|[what|what]];
    simpl; auto.
Qed.

(** When the dispatch succeeds and the names of the response headers are
    distinct, the reply is the body, the status code and the headers of the
    response, unchanged. *)
Theorem api_function_returns_response_unchanged
    (client_request :
       str -> str -> headers_dict -> option bytes -> outcome Response)
    (request : PlatformRequest) (response : Response) :
  dispatch client_request request = Ok response ->
  NoDup (map fst (response_headers response)) ->
  api_function client_request request
  = Ok (content response, status_code response, response_headers response).
Proof.
  intros H Hnd. rewrite (api_function_success client_request request response H).
  now rewrite (dict_distinct (response_headers response) Hnd).
Qed.

(** A client that answers every dispatch with the same response. *)
Definition health_response : Response :=
  {| content := lit "{}";
     status_code := 200;
     response_headers := [(lit "content-length", lit "2");
                          (lit "content-type", lit "application/json")] |}.

Definition constant_client
  : str -> str -> headers_dict -> option bytes -> outcome Response :=
  fun _ _ _ _ => Ok health_response.

Lemma api_function_returns_response_unchanged_witness :
  dispatch constant_client (get_request "/health" "") = Ok health_response
  /\ NoDup (map fst (response_headers health_response))
  /\ api_function constant_client (get_request "/health" "")
     = Ok (lit "{}", 200%Z,
           [(lit "content-length", lit "2");
            (lit "content-type", lit "application/json")]).
Proof.
  assert (Hnd : NoDup (map fst (response_headers health_response))).
  { simpl. repeat constructor; simpl; [|tauto].
    intros [H|[]]. cbv in H. discriminate H. }
  split; [reflexivity|]. split; [exact Hnd|].
  apply (api_function_returns_response_unchanged constant_client
           (get_request "/health" "") health_response eq_refl Hnd).
Defined.

Lemma url_of_no_query_witness :
  (query_string (get_request "/health" "") = []
   /\ path (get_request "/health" "") <> []
   /\ ends_with_qmark (path (get_request "/health" "")) = false)
  /\ url_of (get_request "/health" "") = lit "/health".
Proof.
  split; [repeat split; discriminate|].
  apply (url_of_no_query (get_request "/health" ""));
    [reflexivity | discriminate | reflexivity].
Defined.

Lemma url_of_query_kept_witness :
  (query_string (get_request "/hello" "lang=en") <> []
   /\ ends_with_qmark (query_string (get_request "/hello" "lang=en")) = false)
  /\ url_of (get_request "/hello" "lang=en") = lit "/hello?lang=en".
Proof.
  split; [split; [discriminate | reflexivity]|].
  apply (url_of_query_kept (get_request "/hello" "lang=en"));
    [discriminate | reflexivity].
Defined.

End AdapterProps.
